(** * Survival toolkit: the countdown ("defuse") and domination engines

    A shallow embedding of the state-update logic of [src/app/page.tsx]:

    - [Defuse]: the bomb countdown of [DefuseTab] (one-second interval
      callback, [applySetup], [startTimer], [toggleDisarm], [pressPad], the
      submit handler of [TimeSetupModal]) together with the conditions under
      which the rendered controls can invoke those handlers;
    - [Dom]: the tug-of-war bar of [DominationTab] (the always-on 50 ms
      interval callback, [setActiveAndKick], the fill-time input, reset).

    React state cells become record fields; a handler becomes a function
    from state to state.  Sound, vibration and DOM class toggling have no
    effect on the state and are left out.  [performance.now()] is an input
    of the handlers that read it. *)

From Stdlib Require Import ZArith QArith List Bool Lia Lqa.
From Stdlib Require Ascii String DecimalString DecimalPos DecimalZ.
Import ListNotations.

(* ================================================================= *)
(** ** Defuse: the countdown engine and the disarm puzzle *)

Module Defuse.

Local Open Scope Z_scope.

(** *** JavaScript arrays

    [pressed] is a [boolean[]].  The handlers only ever store [true] and
    [false] in it, but [next[i] = true] with [i] past the end extends the
    array and leaves holes, and the spread [[...prev]] turns holes into
    [undefined] elements, so a slot has three shapes. *)

Inductive slot : Type :=
| hole
| undefined
| boolean (b : bool).

(** [Boolean(x)] on a slot read back from the array. *)
Definition Boolean (s : slot) : bool :=
  match s with
  | boolean b => b
  | _ => false
  end.

(** [a[i]]: a hole and an index past the end both read as [undefined]. *)
Definition get (a : list slot) (i : nat) : slot :=
  match nth_error a i with
  | Some hole | None => undefined
  | Some s => s
  end.

(** [[...a]]: the iterator visits every index below [length] and yields
    [undefined] for a hole. *)
Definition spread (a : list slot) : list slot :=
  map (fun s => match s with hole => undefined | _ => s end) a.

(** [a[i] = v] for an array index [i]: in range it overwrites, out of range
    it grows the array, the skipped indices staying holes. *)
Definition assign (a : list slot) (i : nat) (v : slot) : list slot :=
  if (i <? length a)%nat
  then firstn i a ++ v :: skipn (S i) a
  else a ++ repeat hole (i - length a) ++ [v].

(** [a.every(Boolean)]: [every] does not call the predicate on holes. *)
Definition every_Boolean (a : list slot) : bool :=
  forallb (fun s => match s with hole => true | _ => Boolean s end) a.

(** [Array(9).fill(false)]. *)
Definition Array9_false : list slot := repeat (boolean false) 9.

(** The array that holds exactly the booleans [bs]. *)
Definition dense (bs : list bool) : list slot := map boolean bs.

(** *** State of [DefuseTab] *)

Record state : Type := mkState {
  totalSeconds : Z;
  timeLeft : Z;
  isRunning : bool;
  showSetup : bool;
  showExploded : bool;
  showDisarmed : bool;
  disarmMode : bool;
  pressed : list slot
}.

(** The [useState] initial values. *)
Definition init : state :=
  {| totalSeconds := 0; timeLeft := 0; isRunning := false;
     showSetup := true; showExploded := false; showDisarmed := false;
     disarmMode := false; pressed := Array9_false |}.

Definition setTotalSeconds (v : Z) (st : state) : state :=
  mkState v (timeLeft st) (isRunning st) (showSetup st) (showExploded st)
          (showDisarmed st) (disarmMode st) (pressed st).
Definition setTimeLeft (v : Z) (st : state) : state :=
  mkState (totalSeconds st) v (isRunning st) (showSetup st) (showExploded st)
          (showDisarmed st) (disarmMode st) (pressed st).
Definition setIsRunning (v : bool) (st : state) : state :=
  mkState (totalSeconds st) (timeLeft st) v (showSetup st) (showExploded st)
          (showDisarmed st) (disarmMode st) (pressed st).
Definition setShowSetup (v : bool) (st : state) : state :=
  mkState (totalSeconds st) (timeLeft st) (isRunning st) v (showExploded st)
          (showDisarmed st) (disarmMode st) (pressed st).
Definition setShowExploded (v : bool) (st : state) : state :=
  mkState (totalSeconds st) (timeLeft st) (isRunning st) (showSetup st) v
          (showDisarmed st) (disarmMode st) (pressed st).
Definition setShowDisarmed (v : bool) (st : state) : state :=
  mkState (totalSeconds st) (timeLeft st) (isRunning st) (showSetup st)
          (showExploded st) v (disarmMode st) (pressed st).
Definition setDisarmMode (v : bool) (st : state) : state :=
  mkState (totalSeconds st) (timeLeft st) (isRunning st) (showSetup st)
          (showExploded st) (showDisarmed st) v (pressed st).
Definition setPressed (v : list slot) (st : state) : state :=
  mkState (totalSeconds st) (timeLeft st) (isRunning st) (showSetup st)
          (showExploded st) (showDisarmed st) (disarmMode st) v.

(** The component keeps no outcome cell: the outcome of a countdown is what
    the two result flags say.  Only the one-second callback raises
    [showExploded] and only a successful disarm raises [showDisarmed]. *)
Inductive outcome_t : Type := NONE | EXPIRED | DISARMED.

Definition outcome (st : state) : outcome_t :=
  if showExploded st then EXPIRED
  else if showDisarmed st then DISARMED
  else NONE.

(** *** Handlers *)

(** Body of the [setInterval] callback: the [setTimeLeft] updater and the
    setters it calls on expiry. *)
Definition tickCallback (st : state) : state :=
  let prev := timeLeft st in
  if prev <=? 1 then
    setTimeLeft 0
      (setShowExploded true (setDisarmMode false (setIsRunning false st)))
  else
    let next := prev - 1 in
    setTimeLeft next st.

(** The effect registers the interval only while [isRunning] and clears it
    otherwise, so a tick reaches the callback only in a running state. *)
Definition tick (st : state) : state :=
  if isRunning st then tickCallback st else st.

Definition openSetup (st : state) : state := setShowSetup true st.

Definition applySetup (seconds : Z) (st : state) : state :=
  setPressed Array9_false
    (setDisarmMode false
      (setIsRunning false
        (setShowDisarmed false
          (setShowExploded false
            (setShowSetup false
              (setTimeLeft seconds (setTotalSeconds seconds st))))))).

Definition startTimer (st : state) : state :=
  if timeLeft st <=? 0 then st else setIsRunning true st.

Definition toggleDisarm (st : state) : state :=
  if negb (disarmMode st) then
    setDisarmMode true (setPressed Array9_false st)
  else
    let allPressed := every_Boolean (pressed st) in
    if allPressed then
      setShowDisarmed true (setDisarmMode false (setIsRunning false st))
    else st.

(** [pressPad(i)] for an array index [i]. *)
Definition pressPad (i : nat) (st : state) : state :=
  let prev := pressed st in
  if Boolean (get prev i) then st
  else
    let next := spread prev in
    setPressed (assign next i (boolean true)) st.

(** *** The setup dialog *)

(** [clampInt]; [None] stands for [NaN], which [parseInt] may return. *)
Definition clampInt (n : option Z) (min max : Z) : Z :=
  match n with
  | None => min
  | Some n => Z.max min (Z.min max n)
  end.

Inductive submit_result : Type :=
| rejected      (* [setError(...)] and return: [onApply] is not called *)
| applied (st : state).

(** [submit] of [TimeSetupModal], with [onApply] the callback that
    [DefuseTab] passes: [(m, s) => applySetup(m * 60 + s)].  The arguments
    are the results of the two [parseInt] calls. *)
Definition submit (m s : option Z) (st : state) : submit_result :=
  let minutes := clampInt m 0 999 in
  let seconds := clampInt s 0 59 in
  let total := minutes * 60 + seconds in
  if total <=? 0 then rejected
  else applied (applySetup (minutes * 60 + seconds) st).

(** The countdown state after a submit. *)
Definition after_submit (m s : option Z) (st : state) : state :=
  match submit m s st with
  | rejected => st
  | applied st' => st'
  end.

(** *** What the rendered controls let through

    A handler runs only when its control is rendered and enabled.  The
    conditions below are the [disabled] attributes and the conditional
    rendering of the JSX. *)

Inductive event : Type :=
| Submit (m s : option Z)     (* "apply" in the setup dialog *)
| CloseSetup
| OpenSetup
| ClickStart
| Tick
| ClickDisarm
| ClickPad (i : nat)
| CloseExploded
| ResetExploded
| CloseDisarmed
| ResetDisarmed.

Definition start_disabled (st : state) : bool :=
  isRunning st || (timeLeft st <=? 0) || showExploded st || showDisarmed st.

Definition disarm_disabled (st : state) : bool :=
  showExploded st || showDisarmed st || (totalSeconds st =? 0).

(** The nine pads are rendered by [Array.from({ length: 9 }).map((_, i) => ...)]
    inside [{disarmMode && ...}]. *)
Definition pad_rendered (i : nat) (st : state) : bool :=
  disarmMode st && (i <? 9)%nat.

Definition handle (e : event) (st : state) : state :=
  match e with
  | Submit m s => if showSetup st then after_submit m s st else st
  | CloseSetup => if showSetup st then setShowSetup false st else st
  | OpenSetup => openSetup st
  | ClickStart => if start_disabled st then st else startTimer st
  | Tick => tick st
  | ClickDisarm => if disarm_disabled st then st else toggleDisarm st
  | ClickPad i => if pad_rendered i st then pressPad i st else st
  | CloseExploded =>
      if showExploded st then setShowExploded false st else st
  | ResetExploded =>
      if showExploded st then setShowSetup true (setShowExploded false st)
      else st
  | CloseDisarmed =>
      if showDisarmed st then setShowDisarmed false st else st
  | ResetDisarmed =>
      if showDisarmed st then setShowSetup true (setShowDisarmed false st)
      else st
  end.

Definition run (es : list event) (st : state) : state :=
  fold_left (fun s e => handle e s) es st.




(** *** Properties and sample states *)





(** [switches[i] = true] on a list of booleans. *)
Definition set_true (i : nat) (bs : list bool) : list bool :=
  firstn i bs ++ true :: skipn (S i) bs.

(** A press operation that does nothing to the switches unless an attempt
    is active and the index is one of 0..8, sets the switch otherwise, and
    is idempotent. *)
Definition press_contract (press : nat -> state -> state) : Prop :=
  forall i st,
    (disarmMode st = false \/ (9 <= i)%nat ->
       pressed (press i st) = pressed st)
    /\ (disarmMode st = true /\ (i < 9)%nat ->
       Boolean (get (pressed (press i st)) i) = true)
    /\ press i (press i st) = press i st.

(** A running countdown with the puzzle attempted and every switch set. *)
Definition armed_all_set : state :=
  mkState 5 3 true false false false true (dense (repeat true 9)).


(** *** Display values and feedback calls *)

(** [pressed.filter(Boolean).length], shown as the progress [n/9]. *)
Definition pressedCount (st : state) : nat :=
  length (filter Boolean (pressed st)).


Inductive wave : Type := sine | square.

(** The arguments [playTick] passes to [tone]. *)
Record tone_args : Type := mkTone {
  freq : Q;
  duration : Q;
  type : wave;
  volume : Q
}.

Definition playTick (secondLeft : Z) : tone_args :=
  let urgent := secondLeft <=? 10 in
  let freq := if urgent then 1100%Q else 880%Q in
  let dur := if urgent then 0.1%Q else 0.06%Q in
  mkTone freq dur square (if urgent then 0.08%Q else 0.05%Q).

(** The feedback calls of the one-second callback, in call order. *)
Inductive feedback : Type :=
| explosion                      (* [void playExplosion()] *)
| vibrate (pattern : list Z)     (* [vibrate(30)] is the pattern [[30]] *)
| tick_tone (t : tone_args).     (* [playTick(next)] *)

Definition tickFeedback (st : state) : list feedback :=
  let prev := timeLeft st in
  if prev <=? 1 then [explosion; vibrate [200; 120; 200]]
  else
    let next := prev - 1 in
    tick_tone (playTick next) :: (if next <=? 5 then [vibrate [30]] else []).

(** The feedback of [n] successive ticks; a stopped countdown has no
    interval and so no feedback. *)
Fixpoint feedback_of_ticks (n : nat) (st : state) : list feedback :=
  match n with
  | O => []
  | S n' =>
      (if isRunning st then tickFeedback st else [])
      ++ feedback_of_ticks n' (tick st)
  end.

Definition is_explosion (f : feedback) : bool :=
  match f with explosion => true | _ => false end.

Definition is_tick_tone (f : feedback) : bool :=
  match f with tick_tone _ => true | _ => false end.

(** A tick tone with the urgent pitch. *)
Definition is_urgent_tone (f : feedback) : bool :=
  match f with
  | tick_tone t => Qeq_bool (freq t) 1100
  | _ => false
  end.

(** The light pulse [vibrate(30)]. *)
Definition is_light_pulse (f : feedback) : bool :=
  match f with
  | vibrate [30] => true
  | _ => false
  end.

Definition count (p : feedback -> bool) (l : list feedback) : nat :=
  length (filter p l).

(** Number of pad clicks among the events. *)
Definition is_pad_click (e : event) : bool :=
  match e with ClickPad _ => true | _ => false end.

Definition pad_clicks (es : list event) : nat :=
  length (filter is_pad_click es).

(** The switch array is nine boolean slots. *)
Definition nine_switches (st : state) : Prop :=
  exists bs, pressed st = dense bs /\ length bs = 9%nat.

(** The time left is between 0 and the total, itself at most 999:59. *)
Definition time_in_range (st : state) : Prop :=
  0 <= timeLeft st <= totalSeconds st /\ totalSeconds st <= 59999.

(** After [n] pad clicks: nine boolean switches, at most [n] of them set,
    and a disarmed flag only if [n] is at least nine. *)
Definition pads_invariant (st : state) (n : nat) : Prop :=
  nine_switches st
  /\ (pressedCount st <= n)%nat
  /\ (showDisarmed st = true -> (9 <= n)%nat).

(** Five seconds set up, started, disarm mode entered, the nine pads
    clicked in order, disarm confirmed. *)
Definition disarm_by_clicks : list event :=
  [Submit (Some 0) (Some 5); ClickStart; ClickDisarm]
  ++ map ClickPad (seq 0 9) ++ [ClickDisarm].


End Defuse.

(* ================================================================= *)
(** ** Dom: the domination bar *)

Module Dom.

Local Open Scope Q_scope.

(** JavaScript numbers are taken as exact rationals: rounding of the
    double-precision operations is not modelled.  Timestamps are the
    milliseconds of [performance.now()]. *)

Inductive side : Type := red | blue.

(** [active] is the union ["red" | "blue" | null]. *)
Definition side_eqb (a b : side) : bool :=
  match a, b with
  | red, red | blue, blue => true
  | _, _ => false
  end.

(** The three [useState] cells and the four [useRef] cells. *)
Record state : Type := mkState {
  value : Q;
  active : option side;
  fillTimeSec : Q;
  valueRef : Q;
  activeRef : option side;
  fillTimeRef : Q;
  lastTickRef : option Q
}.

Definition init : state :=
  {| value := 0; active := None; fillTimeSec := 60;
     valueRef := 0; activeRef := None; fillTimeRef := 60;
     lastTickRef := None |}.

Definition setValue (v : Q) (st : state) : state :=
  mkState v (active st) (fillTimeSec st) (valueRef st) (activeRef st)
          (fillTimeRef st) (lastTickRef st).
Definition setActive (v : option side) (st : state) : state :=
  mkState (value st) v (fillTimeSec st) (valueRef st) (activeRef st)
          (fillTimeRef st) (lastTickRef st).
Definition setFillTimeSec (v : Q) (st : state) : state :=
  mkState (value st) (active st) v (valueRef st) (activeRef st)
          (fillTimeRef st) (lastTickRef st).
Definition set_valueRef (v : Q) (st : state) : state :=
  mkState (value st) (active st) (fillTimeSec st) v (activeRef st)
          (fillTimeRef st) (lastTickRef st).
Definition set_activeRef (v : option side) (st : state) : state :=
  mkState (value st) (active st) (fillTimeSec st) (valueRef st) v
          (fillTimeRef st) (lastTickRef st).
Definition set_fillTimeRef (v : Q) (st : state) : state :=
  mkState (value st) (active st) (fillTimeSec st) (valueRef st) (activeRef st)
          v (lastTickRef st).
Definition set_lastTickRef (v : option Q) (st : state) : state :=
  mkState (value st) (active st) (fillTimeSec st) (valueRef st) (activeRef st)
          (fillTimeRef st) v.

(** *** Number operations *)

Definition Math_max (a b : Q) : Q := if Qle_bool a b then b else a.
Definition Math_min (a b : Q) : Q := if Qle_bool a b then a else b.

Definition gtb (a b : Q) : bool := negb (Qle_bool a b).   (* a > b *)
Definition ltb (a b : Q) : bool := negb (Qle_bool b a).   (* a < b *)
Definition geb (a b : Q) : bool := Qle_bool b a.          (* a >= b *)
Definition leb (a b : Q) : bool := Qle_bool a b.          (* a <= b *)
Definition strict_neq (a b : Q) : bool := negb (Qeq_bool a b).  (* a !== b *)

(** The two statements [if (next > 100) next = 100; if (next < -100) next = -100;]. *)
Definition clamp (next : Q) : Q :=
  let next := if gtb next 100 then 100 else next in
  if ltb next (-100) then -100 else next.

(** [side === "red" ? 1 : -1]. *)
Definition dir_of (s : side) : Q :=
  if side_eqb s red then 1 else -1.

(** [100 / Math.max(1, fillTimeRef.current)]. *)
Definition stepPerSec (st : state) : Q := 100 / Math_max 1 (fillTimeRef st).

(** *** Handlers *)

(** Body of the always-on [setInterval] callback; [now] is what
    [performance.now()] returns. *)
Definition tickCallback (now : Q) (st : state) : state :=
  match activeRef st with
  | None => set_lastTickRef (Some now) st
  | Some a =>
      let last := match lastTickRef st with None => now | Some t => t end in
      let dt := Math_max 0 ((now - last) / 1000) in
      let st := set_lastTickRef (Some now) st in
      let next := clamp (valueRef st + dir_of a * stepPerSec st * dt) in
      let st :=
        if strict_neq next (valueRef st)
        then setValue next (set_valueRef next st)
        else st in
      if (side_eqb a red && geb next 100) || (side_eqb a blue && leb next (-100))
      then setActive None st
      else st
  end.

Definition kickDt : Q := 0.06.

Definition setActiveAndKick (s : option side) (now : Q) (st : state) : state :=
  let st := setActive s st in
  match s with
  | Some a =>
      let next := clamp (valueRef st + dir_of a * stepPerSec st * kickDt) in
      set_lastTickRef (Some now) (setValue next (set_valueRef next st))
  | None => st
  end.

Definition handleRed := setActiveAndKick (Some red).
Definition handleBlue := setActiveAndKick (Some blue).
Definition handlePause := setActiveAndKick None.

Definition handleReset (now : Q) (st : state) : state :=
  set_lastTickRef (Some now)
    (setValue 0 (set_valueRef 0 (setActiveAndKick None now st))).

(** [onChange] of the fill-time input.  [None] is the empty string, for
    which [e.target.value || 60] is 60; [Some x] is the number the field
    holds. *)
Definition onChangeFillTime (input : option Q) (st : state) : state :=
  let n := match input with None => 60 | Some x => x end in
  setFillTimeSec (Math_max 1 (Math_min 3600 n)) st.

(** The three [useEffect]s that mirror the state cells into the refs.  Each
    runs after a render in which its cell changed; a ref that is not
    rewritten already holds what its cell holds, so the mirror is written
    here unconditionally.  The render and its effects are taken to complete
    before the next handler runs. *)
Definition commit (st : state) : state :=
  set_fillTimeRef (fillTimeSec st)
    (set_activeRef (active st)
      (set_valueRef (value st) st)).

(** *** Operations of the engine: a handler and the commit that follows *)

Definition tick (now : Q) (st : state) : state :=
  commit (tickCallback now st).

Definition setActor (s : option side) (now : Q) (st : state) : state :=
  commit (setActiveAndKick s now st).

Definition reset (now : Q) (st : state) : state :=
  commit (handleReset now st).

Definition setFillDuration (input : option Q) (st : state) : state :=
  commit (onChangeFillTime input st).

Inductive op : Type :=
| SetActor (s : option side) (now : Q)
| TickAt (now : Q)
| SetFillDuration (input : option Q)
| ResetAt (now : Q).

Definition step (o : op) (st : state) : state :=
  match o with
  | SetActor s now => setActor s now st
  | TickAt now => tick now st
  | SetFillDuration x => setFillDuration x st
  | ResetAt now => reset now st
  end.

Definition run (os : list op) (st : state) : state :=
  fold_left (fun s o => step o s) os st.

(** Every state visited while running [os], the start state included. *)
Fixpoint trace (os : list op) (st : state) : list state :=
  match os with
  | [] => [st]
  | o :: os' => st :: trace os' (step o st)
  end.

(** After a commit the refs hold what the state cells hold. *)
Definition synced (st : state) : Prop :=
  valueRef st = value st /\ activeRef st = active st
  /\ fillTimeRef st = fillTimeSec st.

(** Swapping the two sides. *)
Definition flip (s : option side) : option side :=
  match s with
  | Some red => Some blue
  | Some blue => Some red
  | None => None
  end.

Definition mirror (st : state) : state :=
  mkState (- value st) (flip (active st)) (fillTimeSec st)
          (- valueRef st) (flip (activeRef st)) (fillTimeRef st)
          (lastTickRef st).

(** Equality of states up to the value of the rationals they hold. *)
Definition oQeq (a b : option Q) : Prop :=
  match a, b with
  | Some x, Some y => x == y
  | None, None => True
  | _, _ => False
  end.

Definition state_eq (s t : state) : Prop :=
  value s == value t /\ active s = active t /\ fillTimeSec s == fillTimeSec t
  /\ valueRef s == valueRef t /\ activeRef s = activeRef t
  /\ fillTimeRef s == fillTimeRef t /\ oQeq (lastTickRef s) (lastTickRef t).

(** *** Properties and sample states *)

Definition in_range (st : state) : Prop := -100 <= value st <= 100.

(** The timestamp a tick measures from: an absent one counts as [now]. *)
Definition last_or (now : Q) (st : state) : Q :=
  match lastTickRef st with
  | None => now
  | Some t => t
  end.

(** Seconds elapsed at a tick, [Math.max(0, (now - last) / 1000)]. *)
Definition elapsed (now : Q) (st : state) : Q :=
  Math_max 0 ((now - last_or now st) / 1000).

(** The value sits at the bound that side [a] pushes toward. *)
Definition at_own_bound (a : side) (v : Q) : Prop :=
  match a with
  | red => v == 100
  | blue => v == -100
  end.

(** No actor is left once the value is at +100 or -100. *)
Definition cleared_at_bound (st : state) : Prop :=
  value st == 100 \/ value st == -100 -> active st = None.

(** The value is at a bound and a side is still pushing toward it. *)
Definition pushing_at_bound (st : state) : Prop :=
  exists a, active st = Some a /\ at_own_bound a (value st).

(** Fill time one second; red pressed at 0 ms; a tick at 900 ms brings the
    bar to 96; red pressed again at 900 ms. *)
Definition kick_into_bound : list op :=
  [SetFillDuration (Some 1); SetActor (Some red) 0; TickAt 900;
   SetActor (Some red) 900].

(** A synced state with red pushing from 50, fill time 10 s, last tick at
    1000 ms. *)
Definition red_at_50 : state :=
  mkState 50 (Some red) 10 50 (Some red) 10 (Some 1000).

(** *** Display values and runs of one operation *)

(** [Math.max(0, value)] and [Math.max(0, -value)], the widths in percent
    of the red and the blue fill. *)
Definition redPct (st : state) : Q := Math_max 0 (value st).
Definition bluePct (st : state) : Q := Math_max 0 (- value st).

(** Successive ticks at the timestamps [ts]. *)
Definition ticks (ts : list Q) (st : state) : state :=
  fold_left (fun s t => tick t s) ts st.





End Dom.

(* ================================================================= *)
(** ** Text: the clock display and the fields of the setup dialog *)

Module Text.

Import Ascii String DecimalString.
Local Open Scope string_scope.
Local Open Scope Z_scope.

(** Strings are sequences of one-byte characters; the handlers below only
    look at ASCII digits, signs and white space.  Numbers are integers and
    exact, which JavaScript numbers are up to [2 ^ 53].

    [n.toString()] / [String(n)] for an integer [n]: its decimal digits,
    with a leading [-] when negative (JavaScript switches to exponent
    notation from [10 ^ 21] on, which is outside the model). *)
Definition toString (n : Z) : string :=
  NilZero.string_of_int (Z.to_int n).

(** The first [n] characters of [pad] repeated as often as needed;
    [cur] is what is left of the current repetition. *)
Fixpoint filler (n : nat) (pad cur : string) : string :=
  match n with
  | O => ""
  | S n' =>
      match cur with
      | String c rest => String c (filler n' pad rest)
      | EmptyString =>
          match pad with
          | String c rest => String c (filler n' pad rest)
          | EmptyString => ""
          end
      end
  end.

(** [s.padStart(targetLength, padString)]. *)
Definition padStart (s : string) (targetLength : nat) (padString : string)
  : string :=
  if (targetLength <=? String.length s)%nat then s
  else
    match padString with
    | EmptyString => s
    | _ => filler (targetLength - String.length s) padString padString ++ s
    end.

(** [formatTime]: [Math.floor(total / 60)] is the floor quotient and
    [total % 60] the remainder with the sign of [total]. *)
Definition formatTime (total : Z) : string :=
  let m := padStart (toString (total / 60)) 2 "0" in
  let s := padStart (toString (Z.rem total 60)) 2 "0" in
  m ++ ":" ++ s.

(** The character class [[0-9]]. *)
Definition is_digit (c : ascii) : bool :=
  ((48 <=? nat_of_ascii c) && (nat_of_ascii c <=? 57))%nat.

(** Tab, line feed, vertical tab, form feed, carriage return, space. *)
Definition is_space (c : ascii) : bool :=
  let n := nat_of_ascii c in
  ((9 <=? n) && (n <=? 13) || (n =? 32))%nat.

Fixpoint trimStart (s : string) : string :=
  match s with
  | String c rest => if is_space c then trimStart rest else s
  | EmptyString => EmptyString
  end.

(** The longest prefix made of digits. *)
Fixpoint digit_prefix (s : string) : string :=
  match s with
  | String c rest => if is_digit c then String c (digit_prefix rest) else ""
  | EmptyString => EmptyString
  end.

(** The number written by a string of digits. *)
Definition digits_value (z : string) : option Z :=
  option_map Z.of_uint (NilEmpty.uint_of_string z).

(** [parseInt(s, 10)]: leading white space is skipped, a sign is taken,
    then the longest run of digits is read; [None] is [NaN].  The number
    read is exact (JavaScript rounds runs of more than 15 digits). *)
Definition parseInt (s : string) : option Z :=
  let s := trimStart s in
  let '(sign, s) :=
    match s with
    | String "-" rest => (-1, rest)
    | String "+" rest => (1, rest)
    | _ => (1, s)
    end in
  match digit_prefix s with
  | EmptyString => None
  | z => option_map (fun n => sign * n) (digits_value z)
  end.

(** [s || d] on strings: the empty string is falsy. *)
Definition or_string (s d : string) : string :=
  match s with
  | EmptyString => d
  | _ => s
  end.

(** [n || 0] on the result of [parseInt]: [NaN] and 0 are falsy. *)
Definition or_zero (n : option Z) : Z :=
  match n with
  | Some n => n
  | None => 0
  end.

(** [value.replace(/[^0-9]/g, "")]. *)
Fixpoint digitsOnly (s : string) : string :=
  match s with
  | String c rest =>
      if is_digit c then String c (digitsOnly rest) else digitsOnly rest
  | EmptyString => EmptyString
  end.

(** [onChange] of [NumberField]: the new text of the field, given the text
    [typed] now in the input and the text [cur] the field held. *)
Definition fieldChange (max : Z) (typed cur : string) : string :=
  let digits := digitsOnly typed in
  if (String.length (toString max) <? String.length digits)%nat then cur
  else digits.

(** [onBlur] of [NumberField]; [minutes] says whether the label is the
    minutes label. *)
Definition fieldBlur (minutes : bool) (max : Z) (cur : string) : string :=
  let v := or_string cur "0" in
  if minutes then
    padStart (toString (or_zero (parseInt v))) 2 "0"
  else
    let n := Defuse.clampInt (Some (or_zero (parseInt v))) 0 max in
    padStart (toString n) 2 "0".

(** The two fields of [TimeSetupModal] and its submit handler, with the
    [onApply] callback of [DefuseTab]. *)
Definition blurMinutes : string -> string := fieldBlur true 999.
Definition blurSeconds : string -> string := fieldBlur false 59.
Definition changeMinutes : string -> string -> string := fieldChange 999.
Definition changeSeconds : string -> string -> string := fieldChange 59.

Definition submitFields (m s : string) (st : Defuse.state)
  : Defuse.submit_result :=
  Defuse.submit (parseInt (or_string m "0")) (parseInt (or_string s "0")) st.

(** Every character is a digit. *)
Fixpoint all_digits (s : string) : bool :=
  match s with
  | String c rest => is_digit c && all_digits rest
  | EmptyString => true
  end.

End Text.

(* ================================================================= *)
(** ** Properties of the countdown engine *)

Module DefuseProofs.

Import Defuse.
Local Open Scope Z_scope.

(** *** Arrays *)

Lemma every_Boolean_dense (bs : list bool) :
  every_Boolean (dense bs) = forallb (fun b => b) bs.
Proof.
  unfold every_Boolean, dense.
  induction bs as [|b bs IH]; simpl; [reflexivity|].
  rewrite IH; reflexivity.
Qed.

Lemma forallb_id_repeat (bs : list bool) :
  forallb (fun b => b) bs = true <-> bs = repeat true (length bs).
Proof.
  induction bs as [|b bs IH]; simpl.
  - split; reflexivity.
  - rewrite andb_true_iff, IH. split.
    + intros [-> E]. f_equal. exact E.
    + intros E. injection E as -> E. split; [reflexivity | exact E].
Qed.

(** *** The one-second tick *)

Lemma tick_running (st : state) :
  isRunning st = true -> tick st = tickCallback st.
Proof. unfold tick; intros ->; reflexivity. Qed.

Lemma tick_stopped (st : state) :
  isRunning st = false -> tick st = st.
Proof. unfold tick; intros ->; reflexivity. Qed.

(** A running countdown with [d] seconds left shows [d - n] after [n < d]
    ticks and is still running. *)
Lemma ticks_count_down (st : state) (n : nat) :
  isRunning st = true ->
  Z.of_nat n < timeLeft st ->
  Nat.iter n tick st = setTimeLeft (timeLeft st - Z.of_nat n) st.
Proof.
  intros Hrun. induction n as [|n IH]; intros Hn.
  - simpl. rewrite Z.sub_0_r. destruct st; reflexivity.
  - simpl Nat.iter. rewrite IH by lia.
    unfold tick, tickCallback. simpl. rewrite Hrun.
    destruct (Z.leb_spec (timeLeft st - Z.of_nat n) 1) as [H | H]; [lia|].
    unfold setTimeLeft. simpl. f_equal. lia.
Qed.

(** It expires at tick number [d], and later ticks change nothing. *)
Lemma ticks_expire (st : state) (n : nat) :
  isRunning st = true ->
  0 < timeLeft st ->
  (Z.to_nat (timeLeft st) <= n)%nat ->
  Nat.iter n tick st
  = mkState (totalSeconds st) 0 false (showSetup st) true (showDisarmed st)
            false (pressed st).
Proof.
  intros Hrun Hpos Hn.
  remember (Z.to_nat (timeLeft st)) as d eqn:Hd.
  induction Hn as [|n Hle IH].
  - destruct d as [|d]; [lia|]. simpl Nat.iter.
    rewrite (ticks_count_down st d Hrun) by lia.
    unfold tick, tickCallback. simpl. rewrite Hrun.
    destruct (Z.leb_spec (timeLeft st - Z.of_nat d) 1) as [H | H]; [|lia].
    reflexivity.
  - simpl Nat.iter. rewrite IH. reflexivity.
Qed.

(** C1. Countdown tick contract.  In a running countdown, a tick with
    [timeLeft <= 1] sets [timeLeft] to 0, [isRunning] to false, raises the
    expired flag (outcome EXPIRED) and leaves disarm mode, the switches and
    the other cells staying as they are; a tick with [timeLeft > 1] lowers
    [timeLeft] by exactly one and changes no other cell.  After
    [applySetup 5] and [startTimer], the fourth tick leaves [timeLeft = 1]
    with the countdown running, and the fifth leaves [timeLeft = 0], not
    running, outcome EXPIRED. *)
Theorem tick_contract (st : state) :
  isRunning st = true ->
  (timeLeft st <= 1 ->
     tick st = mkState (totalSeconds st) 0 false (showSetup st) true
                       (showDisarmed st) false (pressed st)
     /\ timeLeft (tick st) = 0
     /\ isRunning (tick st) = false
     /\ outcome (tick st) = EXPIRED
     /\ disarmMode (tick st) = false)
  /\ (1 < timeLeft st ->
     tick st = setTimeLeft (timeLeft st - 1) st
     /\ timeLeft (tick st) = timeLeft st - 1
     /\ isRunning (tick st) = true
     /\ outcome (tick st) = outcome st)
  /\ (let ready := startTimer (applySetup 5 init) in
      let after4 := Nat.iter 4 tick ready in
      let after5 := Nat.iter 5 tick ready in
      timeLeft after4 = 1 /\ isRunning after4 = true
      /\ timeLeft after5 = 0 /\ isRunning after5 = false
      /\ outcome after5 = EXPIRED).
Proof.
  intros Hrun. rewrite (tick_running st Hrun). unfold tickCallback.
  split; [|split].
  - intros Hle. apply Z.leb_le in Hle. rewrite Hle.
    repeat split; reflexivity.
  - intros Hgt. apply Z.leb_gt in Hgt. rewrite Hgt.
    repeat split; try reflexivity. exact Hrun.
  - repeat split; reflexivity.
Qed.

Lemma tick_contract_witness :
  let st := startTimer (applySetup 5 init) in
  isRunning st = true /\ timeLeft (tick st) = 4
  /\ outcome (Nat.iter 5 tick st) = EXPIRED.
Proof.
  assert (Hrun : isRunning (startTimer (applySetup 5 init)) = true)
    by reflexivity.
  destruct (tick_contract _ Hrun) as [_ [Hdec Hscen]].
  cbv zeta in *. split; [exact Hrun|]. split.
  - destruct Hdec as [_ [H _]]; [reflexivity | exact H].
  - destruct Hscen as (_ & _ & _ & _ & H). exact H.
Defined.

(** *** Disarm *)

(** C4. Disarm-confirm contract.  With no outcome yet and the puzzle being
    attempted, pressing the disarm control again with all nine switches set
    gives outcome DISARMED and stops the countdown; with any other setting
    of the nine switches the state is left exactly as it was: same outcome,
    attempt still active, same switches. *)
Theorem disarm_confirm (st : state) (bs : list bool) :
  outcome st = NONE ->
  disarmMode st = true ->
  pressed st = dense bs ->
  length bs = 9%nat ->
  (bs = repeat true 9 ->
     outcome (toggleDisarm st) = DISARMED
     /\ isRunning (toggleDisarm st) = false)
  /\ (bs <> repeat true 9 ->
     toggleDisarm st = st
     /\ outcome (toggleDisarm st) = NONE
     /\ disarmMode (toggleDisarm st) = true
     /\ pressed (toggleDisarm st) = dense bs).
Proof.
  intros Hout Hmode Hpr Hlen.
  unfold toggleDisarm. rewrite Hmode, Hpr, every_Boolean_dense. simpl negb. cbv iota.
  split.
  - intros Hall.
    assert (E : forallb (fun b => b) bs = true).
    { apply forallb_id_repeat. rewrite Hlen. exact Hall. }
    rewrite E. split; [|reflexivity].
    unfold outcome in *. simpl.
    destruct (showExploded st); [discriminate | reflexivity].
  - intros Hsome.
    destruct (forallb (fun b => b) bs) eqn:E.
    + exfalso. apply Hsome. apply forallb_id_repeat in E.
      rewrite Hlen in E. exact E.
    + repeat split; assumption.
Qed.

Lemma disarm_confirm_witness :
  outcome (toggleDisarm armed_all_set) = DISARMED
  /\ isRunning (toggleDisarm armed_all_set) = false.
Proof.
  apply (disarm_confirm armed_all_set (repeat true 9)); reflexivity.
Defined.

(** *** Configure *)

Lemma clampInt_bounds (n : option Z) (lo hi : Z) :
  lo <= hi -> lo <= clampInt n lo hi <= hi.
Proof. destruct n; simpl; lia. Qed.

(** [applySetup] itself does not look at its argument: called with 0 it
    still overwrites the state. *)
Lemma applySetup_unchecked :
  applySetup 0 armed_all_set <> armed_all_set.
Proof. discriminate. Qed.

(** C9. Configure contract.  For every [d > 0], [applySetup d] sets
    [totalSeconds = timeLeft = d], stops the countdown, clears the outcome
    and resets the puzzle (not attempting, nine switches false).  The setup
    dialog computes the duration [d] from its two fields, never below 0,
    and, when [d <= 0], rejects the submit without calling [applySetup]:
    the countdown state is unchanged.  When [d > 0] it applies exactly
    [applySetup d]. *)
Theorem configure_contract (st : state) :
  (forall d, 0 < d ->
     totalSeconds (applySetup d st) = d
     /\ timeLeft (applySetup d st) = d
     /\ isRunning (applySetup d st) = false
     /\ outcome (applySetup d st) = NONE
     /\ disarmMode (applySetup d st) = false
     /\ pressed (applySetup d st) = dense (repeat false 9))
  /\ (forall m s,
      let d := clampInt m 0 999 * 60 + clampInt s 0 59 in
      0 <= d
      /\ (d <= 0 -> submit m s st = rejected /\ after_submit m s st = st)
      /\ (0 < d -> submit m s st = applied (applySetup d st)
                   /\ after_submit m s st = applySetup d st)).
Proof.
  split.
  - intros d _. repeat split; reflexivity.
  - intros m s d. unfold after_submit, submit. fold d. split; [|split].
    + assert (Hm := clampInt_bounds m 0 999). assert (Hs := clampInt_bounds s 0 59).
      subst d. lia.
    + intros Hle. apply Z.leb_le in Hle. rewrite Hle. split; reflexivity.
    + intros Hgt. apply Z.leb_gt in Hgt. rewrite Hgt. split; reflexivity.
Qed.

Lemma configure_contract_witness :
  timeLeft (applySetup 90 init) = 90
  /\ submit (Some 0) None init = rejected
  /\ after_submit (Some 1) (Some 30) init = applySetup 90 init.
Proof.
  destruct (configure_contract init) as [Hpos Hsub].
  split; [apply (Hpos 90); reflexivity|].
  split.
  - apply (Hsub (Some 0) None); simpl; lia.
  - apply (Hsub (Some 1) (Some 30)); reflexivity.
Defined.

(** *** The running invariant *)



Ltac bool_cases :=
  repeat match goal with
  | |- context [if ?b then _ else _] => destruct b eqn:?; simpl in *
  end.









(** *** Pad presses *)

Lemma get_dense (bs : list bool) (i : nat) :
  Boolean (get (dense bs) i) = nth i bs false.
Proof.
  unfold get, dense. revert i.
  induction bs as [|b bs IH]; intros [|i]; simpl; try reflexivity.
  apply IH.
Qed.

Lemma spread_dense (bs : list bool) : spread (dense bs) = dense bs.
Proof.
  unfold spread, dense. rewrite map_map. reflexivity.
Qed.

Lemma assign_dense (bs : list bool) (i : nat) :
  (i < length bs)%nat ->
  assign (dense bs) i (boolean true) = dense (set_true i bs).
Proof.
  intros Hi. unfold assign, dense, set_true.
  rewrite length_map.
  apply Nat.ltb_lt in Hi. rewrite Hi.
  rewrite map_app, firstn_map, skipn_map. reflexivity.
Qed.

Lemma set_true_same (bs : list bool) (i : nat) :
  nth i bs false = true -> set_true i bs = bs.
Proof.
  unfold set_true. revert i.
  induction bs as [|b bs IH]; intros [|i] H; simpl in *;
    try discriminate.
  - rewrite H. reflexivity.
  - f_equal. apply IH, H.
Qed.

Lemma nth_error_assign (a : list slot) (i : nat) (v : slot) :
  nth_error (assign a i v) i = Some v.
Proof.
  unfold assign. destruct (Nat.ltb_spec i (length a)) as [Hlt | Hge].
  - rewrite nth_error_app2; rewrite length_firstn, Nat.min_l by lia;
      [|lia]. rewrite Nat.sub_diag. reflexivity.
  - rewrite nth_error_app2 by lia.
    rewrite nth_error_app2; rewrite repeat_length; [|lia].
    rewrite Nat.sub_diag. reflexivity.
Qed.

Lemma get_assign_true (a : list slot) (i : nat) :
  Boolean (get (assign a i (boolean true)) i) = true.
Proof.
  unfold get. rewrite nth_error_assign. reflexivity.
Qed.

Lemma pressPad_sets (i : nat) (st : state) :
  Boolean (get (pressed (pressPad i st)) i) = true.
Proof.
  unfold pressPad. destruct (Boolean (get (pressed st) i)) eqn:E.
  - exact E.
  - simpl. apply get_assign_true.
Qed.

Lemma pressPad_idempotent (i : nat) (st : state) :
  pressPad i (pressPad i st) = pressPad i st.
Proof.
  assert (H := pressPad_sets i st).
  unfold pressPad at 1. rewrite H. reflexivity.
Qed.

Lemma pressPad_disarmMode (i : nat) (st : state) :
  disarmMode (pressPad i st) = disarmMode st.
Proof.
  unfold pressPad. destruct (Boolean (get (pressed st) i)); reflexivity.
Qed.

(** C8, the claim refuted.  [pressPad] has no guard.  With no attempt active
    it still sets the switch: after [applySetup 5] the puzzle is inactive
    and [pressPad 0] changes the switches.  With an index past the end it
    grows the array: in disarm mode [pressPad 9] makes it ten slots long. *)
Lemma pressPad_unguarded :
  disarmMode (applySetup 5 init) = false
  /\ pressed (pressPad 0 (applySetup 5 init))
     = dense (true :: repeat false 8)
  /\ pressed (pressPad 0 (applySetup 5 init)) <> pressed (applySetup 5 init)
  /\ length (pressed (pressPad 9 (toggleDisarm (applySetup 5 init)))) = 10%nat
  /\ ~ press_contract pressPad.
Proof.
  split; [reflexivity|]. split; [reflexivity|]. split; [discriminate|].
  split; [reflexivity|].
  intros H. destruct (H 0%nat (applySetup 5 init)) as [Hnoop _].
  assert (E : pressed (pressPad 0 (applySetup 5 init))
              = pressed (applySetup 5 init)).
  { apply Hnoop. left. reflexivity. }
  discriminate E.
Qed.

(** C8, as the code has it.  [pressPad i], for an index [i] inside the
    array of switches, sets switch [i] to true whether or not an attempt is
    active and changes nothing else; pressing a switch that is already set
    leaves the state as it is, and pressing the same index twice equals
    pressing it once (for every index).  The guard is in the rendering:
    the pads exist only while the attempt is active and only for indices
    0..8, so a pad press that reaches [pressPad] through the page satisfies
    the press contract: a no-op when inactive or out of range, the switch
    set otherwise, idempotent. *)
Theorem press_contract_holds :
  (forall i st bs,
     pressed st = dense bs -> (i < length bs)%nat ->
     pressPad i st = setPressed (dense (set_true i bs)) st
     /\ (nth i bs false = true -> pressPad i st = st))
  /\ (forall i st, pressPad i (pressPad i st) = pressPad i st)
  /\ press_contract (fun i => handle (ClickPad i)).
Proof.
  split; [|split].
  - intros i st bs Hpr Hi. unfold pressPad. rewrite Hpr, get_dense. split.
    + destruct (nth i bs false) eqn:E.
      * rewrite (set_true_same bs i E), <- Hpr.
        destruct st; reflexivity.
      * rewrite spread_dense, (assign_dense bs i Hi). reflexivity.
    + intros ->. reflexivity.
  - apply pressPad_idempotent.
  - intros i st. unfold handle, pad_rendered. split; [|split].
    + intros [Hm | Hi].
      * rewrite Hm. reflexivity.
      * apply Nat.ltb_ge in Hi. rewrite Hi, andb_false_r. reflexivity.
    + intros [Hm Hi]. apply Nat.ltb_lt in Hi. rewrite Hm, Hi. simpl.
      apply pressPad_sets.
    + destruct (disarmMode st && (i <? 9)%nat) eqn:E.
      * rewrite pressPad_disarmMode, E. apply pressPad_idempotent.
      * rewrite E. reflexivity.
Qed.

Lemma press_contract_holds_witness :
  pressPad 4 armed_all_set = armed_all_set
  /\ pressed (handle (ClickPad 0) (applySetup 5 init))
     = pressed (applySetup 5 init).
Proof.
  destruct press_contract_holds as (Hset & _ & Hclick).
  split.
  - apply (Hset 4%nat armed_all_set (repeat true 9)).
    + reflexivity.
    + simpl. lia.
    + reflexivity.
  - apply (Hclick 0%nat (applySetup 5 init)). left. reflexivity.
Defined.

End DefuseProofs.

(* ================================================================= *)
(** ** Properties of the domination engine *)

Module DomProofs.

Import Dom.
Local Open Scope Q_scope.

(** *** Comparisons *)

Lemma Qle_bool_false (a b : Q) : Qle_bool a b = false -> b < a.
Proof.
  intros E. apply Qnot_le_lt. intros H.
  apply Qle_bool_iff in H. congruence.
Qed.

Lemma Qeq_bool_false (a b : Q) : Qeq_bool a b = false -> ~ a == b.
Proof.
  intros E H. apply Qeq_bool_iff in H. congruence.
Qed.

(** Replace every boolean comparison in the goal by the order fact it
    decides. *)
Ltac qcases :=
  unfold gtb, ltb, geb, leb, strict_neq in *;
  repeat match goal with
  | |- context [Qle_bool ?a ?b] =>
      let E := fresh "E" in
      destruct (Qle_bool a b) eqn:E;
      [apply Qle_bool_iff in E | apply Qle_bool_false in E]
  | |- context [Qeq_bool ?a ?b] =>
      let E := fresh "E" in
      destruct (Qeq_bool a b) eqn:E;
      [apply Qeq_bool_iff in E | apply Qeq_bool_false in E]
  end;
  simpl negb in *; cbv iota in *.

Lemma Math_max_spec (a b : Q) :
  (a <= b /\ Math_max a b = b) \/ (b < a /\ Math_max a b = a).
Proof.
  unfold Math_max. qcases; [left | right]; split; auto.
Qed.

Lemma Math_max_fill (f : Q) : 1 <= f -> Math_max 1 f = f.
Proof.
  intros H. destruct (Math_max_spec 1 f) as [[_ E] | [Hlt _]];
    [exact E | lra].
Qed.

Lemma Math_max_nonneg (x : Q) : 0 <= Math_max 0 x.
Proof.
  destruct (Math_max_spec 0 x) as [[H ->] | [_ ->]]; lra.
Qed.

Lemma clamp_cases (x : Q) :
  (100 < x /\ clamp x = 100)
  \/ (x < -100 /\ clamp x = -100)
  \/ (-100 <= x <= 100 /\ clamp x = x).
Proof.
  unfold clamp. qcases; try lra.
  - right; right. split; [lra | reflexivity].
  - left. split; [lra | reflexivity].
  - right; left. split; [lra | reflexivity].
Qed.

Lemma clamp_range (x : Q) : -100 <= clamp x <= 100.
Proof.
  destruct (clamp_cases x) as [[H ->] | [[H ->] | [H ->]]]; lra.
Qed.

Lemma clamp_opp (x : Q) : clamp (- x) == - clamp x.
Proof.
  destruct (clamp_cases x) as [[H ->] | [[H ->] | [H ->]]];
  destruct (clamp_cases (- x)) as [[H' ->] | [[H' ->] | [H' ->]]]; lra.
Qed.

Lemma clamp_compat (x y : Q) : x == y -> clamp x == clamp y.
Proof.
  intros Hxy.
  destruct (clamp_cases x) as [[H ->] | [[H ->] | [H ->]]];
  destruct (clamp_cases y) as [[H' ->] | [[H' ->] | [H' ->]]]; lra.
Qed.

Lemma stepPerSec_pos (st : state) : 0 < stepPerSec st.
Proof.
  unfold stepPerSec.
  assert (H : 1 <= Math_max 1 (fillTimeRef st)).
  { destruct (Math_max_spec 1 (fillTimeRef st)) as [[H ->] | [_ ->]]; lra. }
  apply Qlt_shift_div_l; lra.
Qed.

Lemma dir_of_red : dir_of red = 1.
Proof. reflexivity. Qed.

Lemma dir_of_blue : dir_of blue = -1.
Proof. reflexivity. Qed.

(** *** Commit *)

Lemma commit_synced (st : state) : synced (commit st).
Proof. repeat split. Qed.

Lemma commit_fixed (st : state) : synced st -> commit st = st.
Proof.
  destruct st as [v a f vr ar fr l]. unfold synced, commit; simpl.
  intros (-> & -> & ->). reflexivity.
Qed.

(** Every operation ends with a commit, and the fill time only changes
    through the clamping input handler: the refs mirror the state cells and
    the fill time stays within [1, 3600] in every reachable state. *)
Lemma step_fill_range (o : op) (st : state) :
  1 <= fillTimeSec st <= 3600 -> 1 <= fillTimeSec (step o st) <= 3600.
Proof.
  intros H. destruct o as [[a|] now | now | x | now]; simpl; try exact H.
  - unfold tickCallback. destruct (activeRef st) as [a|]; [|exact H].
    destruct a; simpl; qcases; simpl; exact H.
  - unfold Math_max, Math_min. qcases; lra.
Qed.

Lemma reachable_well_formed (os : list op) :
  synced (run os init) /\ 1 <= fillTimeSec (run os init) <= 3600.
Proof.
  assert (H0 : synced init /\ 1 <= fillTimeSec init <= 3600).
  { split; [repeat split | simpl; lra]. }
  revert H0. unfold run. generalize init as st.
  induction os as [|o os IH]; intros st Hst; simpl; [exact Hst|].
  apply IH. split.
  - destruct o; apply commit_synced.
  - apply step_fill_range, Hst.
Qed.

(** *** The 50 ms tick *)

Lemma tickCallback_idle (now : Q) (st : state) :
  activeRef st = None -> tickCallback now st = set_lastTickRef (Some now) st.
Proof. unfold tickCallback. intros ->. reflexivity. Qed.

(** What the callback does while a side is pushing. *)
Lemma tickCallback_active (now : Q) (st : state) (a : side) :
  activeRef st = Some a ->
  valueRef st = value st ->
  let next := clamp (value st + dir_of a * stepPerSec st * elapsed now st) in
  let st' := tickCallback now st in
  value st' == next
  /\ valueRef st' = value st'
  /\ lastTickRef st' = Some now
  /\ fillTimeSec st' = fillTimeSec st
  /\ (at_own_bound a next -> active st' = None)
  /\ (~ at_own_bound a next -> active st' = active st).
Proof.
  intros Ha Hv next st'.
  assert (Hr := clamp_range (value st + dir_of a * stepPerSec st * elapsed now st)).
  fold next in Hr.
  subst st'. unfold tickCallback. rewrite Ha.
  unfold elapsed, last_or in next.
  destruct st as [v act f vr ar fr l]; simpl in *. subst vr ar.
  fold next.
  destruct a; simpl; qcases; simpl;
    repeat match goal with
    | H : context [clamp ?x] |- _ => change (clamp x) with next in H
    end;
    repeat split; try reflexivity; try lra;
    unfold at_own_bound; intros Hb; try reflexivity; try lra;
    exfalso; apply Hb; lra.
Qed.

Lemma tick_stamps (now : Q) (st : state) :
  lastTickRef (tick now st) = Some now.
Proof.
  unfold tick, tickCallback.
  destruct (activeRef st) as [a|]; [|reflexivity].
  simpl. destruct a; simpl; qcases; reflexivity.
Qed.

(** C2. Domination tick contract, for a state whose refs mirror the state
    cells and whose fill time is at least one second.  Timestamps are in
    milliseconds and [dt] is in seconds; an absent last timestamp counts as
    [now].  With no actor the tick only stamps [lastTickRef] with [now]:
    value and actor stay.  With an actor [a] it sets the value to
    [clamp (value + dir_of a * (100 / fillTimeSec) * dt)] with
    [dt = max 0 ((now - last) / 1000)], direction [+1] for red (side A) and
    [-1] for blue (side B), stamps [lastTickRef] with [now], and clears the
    actor when the new value is at the bound the actor pushes toward
    (otherwise the actor stays).  Every tick stamps [now], so no earlier
    timestamp survives an idle period.  With fill time 10 s, red pressed at
    any time [t0] and a tick ten seconds later, the value is 100 and the
    actor is cleared. *)
Theorem domination_tick_contract (st : state) (now : Q) :
  synced st ->
  1 <= fillTimeSec st ->
  lastTickRef (tick now st) = Some now
  /\ (active st = None ->
        tick now st = set_lastTickRef (Some now) st
        /\ value (tick now st) = value st
        /\ active (tick now st) = None)
  /\ (forall a, active st = Some a ->
        let dt := Math_max 0 ((now - last_or now st) / 1000) in
        let next :=
          clamp (value st + dir_of a * (100 / fillTimeSec st) * dt) in
        value (tick now st) == next
        /\ -100 <= value (tick now st) <= 100
        /\ (at_own_bound a next -> active (tick now st) = None)
        /\ (~ at_own_bound a next -> active (tick now st) = Some a))
  /\ dir_of red = 1 /\ dir_of blue = -1
  /\ (forall t0,
        let pressed := setActor (Some red) t0 (setFillDuration (Some 10) init) in
        value (tick (t0 + 10000) pressed) == 100
        /\ active (tick (t0 + 10000) pressed) = None).
Proof.
  intros Hs Hf. destruct Hs as (Hv & Ha & Hfr).
  split; [apply tick_stamps|].
  split; [|split].
  - intros Hn. unfold tick. rewrite tickCallback_idle by congruence.
    rewrite commit_fixed by (repeat split; simpl; assumption).
    repeat split. simpl. exact Hn.
  - intros a Hact dt next.
    assert (Har : activeRef st = Some a) by congruence.
    destruct (tickCallback_active now st a Har Hv)
      as (H1 & H2 & H3 & H4 & H5 & H6).
    assert (Hstep : stepPerSec st = 100 / fillTimeSec st).
    { unfold stepPerSec. rewrite Hfr, Math_max_fill by exact Hf.
      reflexivity. }
    rewrite Hstep in H1, H5, H6. unfold elapsed in H1, H5, H6.
    fold dt in H1, H5, H6. fold next in H1, H5, H6.
    unfold tick. simpl.
    split; [exact H1|]. split.
    + rewrite H1. apply clamp_range.
    + split; [exact H5|]. intros Hn. rewrite (H6 Hn). exact Hact.
  - split; [reflexivity|]. split; [reflexivity|].
    intros t0 pressed.
    assert (Hsy : synced pressed) by apply commit_synced.
    assert (Har : activeRef pressed = Some red) by reflexivity.
    destruct Hsy as (Hv' & _ & _).
    destruct (tickCallback_active (t0 + 10000) pressed red Har Hv')
      as (H1 & _ & _ & _ & H5 & _).
    assert (Hel : elapsed (t0 + 10000) pressed == 10).
    { unfold elapsed. change (last_or (t0 + 10000) pressed) with t0.
      destruct (Math_max_spec 0 ((t0 + 10000 - t0) / 1000))
        as [[_ ->] | [Hlt _]].
      - field.
      - exfalso. revert Hlt. apply Qle_not_lt.
        setoid_replace ((t0 + 10000 - t0) / 1000) with 10 by field. lra. }
    assert (Hnext : clamp (value pressed
                           + dir_of red * stepPerSec pressed
                             * elapsed (t0 + 10000) pressed) == 100).
    { rewrite (clamp_compat _ (0.6 + 100)).
      - reflexivity.
      - rewrite Hel. reflexivity. }
    unfold tick. simpl commit. split.
    + simpl. simpl in H1. rewrite H1. exact Hnext.
    + simpl. apply H5. exact Hnext.
Qed.

Lemma domination_tick_contract_witness :
  value (tick 3000 red_at_50) == 70
  /\ active (tick 3000 red_at_50) = Some red.
Proof.
  assert (Hs : synced red_at_50) by (repeat split).
  assert (Hf : 1 <= fillTimeSec red_at_50) by (simpl; lra).
  destruct (domination_tick_contract red_at_50 3000 Hs Hf)
    as (_ & _ & Hact & _).
  destruct (Hact red eq_refl) as (Hv & _ & _ & Hkeep).
  split.
  - rewrite Hv. reflexivity.
  - apply Hkeep. unfold at_own_bound. intros H. vm_compute in H. discriminate H.
Defined.

(** *** Boundedness *)

Lemma step_in_range (o : op) (st : state) :
  in_range st -> in_range (step o st).
Proof.
  unfold in_range. intros H.
  destruct o as [[a|] now | now | x | now]; simpl.
  - apply clamp_range.
  - exact H.
  - unfold tickCallback.
    destruct (activeRef st) as [a|]; [|exact H].
    match goal with
    | |- context [strict_neq (clamp ?x) _] =>
        generalize (clamp_range x); generalize (clamp x)
    end.
    intros next Hn.
    destruct a; simpl; qcases; simpl; lra.
  - exact H.
  - lra.
Qed.

(** C3. Domination boundedness.  Along every sequence of setActor, tick,
    setFillDuration and reset operations from the initial state, the value
    is within [-100, 100] in every state visited: the initial one and the
    one after each operation. *)
Theorem value_bounded (os : list op) :
  Forall in_range (trace os init) /\ in_range (run os init).
Proof.
  assert (H0 : in_range init) by (unfold in_range; simpl; lra).
  revert H0. generalize init as st.
  induction os as [|o os IH]; intros st Hst; simpl.
  - split; [constructor; [exact Hst | constructor] | exact Hst].
  - destruct (IH (step o st) (step_in_range o st Hst)) as [Htr Hrun].
    split; [constructor; assumption | exact Hrun].
Qed.

(** *** The kick *)

(** C7. Kick contract, for a state whose refs mirror the state cells and
    whose fill time is at least one second.  [setActor (Some a)] makes [a]
    the actor, sets the value to
    [clamp (value + dir_of a * (100 / fillTimeSec) * 0.06)], which lies in
    [-100, 100], and stamps [lastTickRef] with the current time, the fill
    time staying as it is.  [setActor None] clears the actor and changes
    nothing else: no kick, same value, same timestamp. *)
Theorem kick_contract (st : state) (now : Q) :
  synced st ->
  1 <= fillTimeSec st ->
  (forall a,
     let st' := setActor (Some a) now st in
     active st' = Some a
     /\ activeRef st' = Some a
     /\ value st'
        = clamp (value st + dir_of a * (100 / fillTimeSec st) * 0.06)
     /\ valueRef st' = value st'
     /\ -100 <= value st' <= 100
     /\ lastTickRef st' = Some now
     /\ fillTimeSec st' = fillTimeSec st)
  /\ setActor None now st = setActive None (set_activeRef None st)
  /\ value (setActor None now st) = value st
  /\ active (setActor None now st) = None
  /\ lastTickRef (setActor None now st) = lastTickRef st.
Proof.
  intros (Hv & Ha & Hfr) Hf. split.
  - intros a st'. subst st'.
    unfold setActor, setActiveAndKick, stepPerSec, kickDt. simpl.
    rewrite Hfr, Hv, (Math_max_fill _ Hf).
    repeat split; try reflexivity; apply clamp_range.
  - unfold setActor, setActiveAndKick, commit.
    destruct st as [v act f vr ar fr l]. simpl in *. subst.
    repeat split.
Qed.

Lemma kick_contract_witness :
  value (setActor (Some blue) 1500 red_at_50) == 49.4
  /\ active (setActor (Some blue) 1500 red_at_50) = Some blue
  /\ lastTickRef (setActor (Some blue) 1500 red_at_50) = Some 1500.
Proof.
  assert (Hs : synced red_at_50) by (repeat split).
  assert (Hf : 1 <= fillTimeSec red_at_50) by (simpl; lra).
  destruct (kick_contract red_at_50 1500 Hs Hf) as (Hkick & _).
  destruct (Hkick blue) as (Hact & _ & Hval & _ & _ & Hstamp & _).
  split; [|split; assumption].
  rewrite Hval. vm_compute. reflexivity.
Defined.

(** *** Clearing the actor at a bound *)

Lemma at_own_bound_compat (a : side) (x y : Q) :
  x == y -> at_own_bound a x -> at_own_bound a y.
Proof.
  unfold at_own_bound. intros E. destruct a; intros H; lra.
Qed.

Lemma at_own_bound_dec (a : side) (x : Q) :
  at_own_bound a x \/ ~ at_own_bound a x.
Proof.
  unfold at_own_bound.
  destruct a; [destruct (Qeq_dec x 100) | destruct (Qeq_dec x (-100))];
    auto.
Qed.

Lemma push_nonneg (now : Q) (st : state) :
  0 <= stepPerSec st * elapsed now st.
Proof.
  apply Qmult_le_0_compat.
  - apply Qlt_le_weak, stepPerSec_pos.
  - apply Math_max_nonneg.
Qed.

(** C6, the claim refuted.  The kick clamps the value but never clears the
    actor.  With fill time one second, red pressed at 0 ms, a tick at
    900 ms and red pressed again, the value is 100 and the actor is still
    red. *)
Lemma kick_leaves_actor_at_bound :
  value (run kick_into_bound init) == 100
  /\ active (run kick_into_bound init) = Some red
  /\ pushing_at_bound (run kick_into_bound init)
  /\ ~ cleared_at_bound (run kick_into_bound init).
Proof.
  assert (Hv : value (run kick_into_bound init) == 100)
    by (vm_compute; reflexivity).
  assert (Ha : active (run kick_into_bound init) = Some red)
    by (vm_compute; reflexivity).
  split; [exact Hv|]. split; [exact Ha|]. split.
  - exists red. split; [exact Ha | exact Hv].
  - intros H. rewrite (H (or_introl Hv)) in Ha. discriminate Ha.
Qed.

(** C6, as the code has it.  In a state whose refs mirror the state cells,
    a tick whose resulting value is at the bound the actor pushes toward
    (+100 for red, -100 for blue) leaves no actor; so no state right after a
    tick has the value at a bound with a side still pushing toward it, and
    a state that does have the actor pushing at its own bound is cleared by
    the very next tick, whatever its timestamp, with the value staying at
    the bound. *)
Theorem tick_clears_actor_at_own_bound (st : state) (now : Q) :
  synced st ->
  (forall a, active st = Some a ->
     at_own_bound a (value (tick now st)) -> active (tick now st) = None)
  /\ ~ pushing_at_bound (tick now st)
  /\ (forall a, active st = Some a -> at_own_bound a (value st) ->
        active (tick now st) = None
        /\ at_own_bound a (value (tick now st))).
Proof.
  intros (Hv & Ha & Hfr).
  assert (Hclear : forall a, active st = Some a ->
            at_own_bound a (value (tick now st)) ->
            active (tick now st) = None).
  { intros a Hact Hb.
    assert (Har : activeRef st = Some a) by congruence.
    destruct (tickCallback_active now st a Har Hv)
      as (H1 & _ & _ & _ & H5 & _).
    unfold tick in *. simpl in *.
    apply H5. apply (at_own_bound_compat a _ _ H1 Hb). }
  split; [exact Hclear|]. split.
  - intros (a' & Hact' & Hb').
    destruct (active st) as [a|] eqn:Hact.
    + assert (Har : activeRef st = Some a) by congruence.
      destruct (tickCallback_active now st a Har Hv)
        as (H1 & _ & _ & _ & H5 & H6).
      destruct (at_own_bound_dec a
                  (clamp (value st + dir_of a * stepPerSec st
                                     * elapsed now st))) as [Hb | Hnb].
      * unfold tick in Hact'. simpl in Hact'. rewrite (H5 Hb) in Hact'.
        discriminate Hact'.
      * unfold tick in Hact', Hb'. simpl in Hact', Hb'.
        rewrite (H6 Hnb), Hact in Hact'. injection Hact' as <-.
        apply Hnb. apply (at_own_bound_compat a _ _ H1 Hb').
    + unfold tick in Hact'. rewrite tickCallback_idle in Hact' by congruence.
      simpl in Hact'. congruence.
  - intros a Hact Hb.
    assert (Har : activeRef st = Some a) by congruence.
    destruct (tickCallback_active now st a Har Hv)
      as (H1 & _ & _ & _ & H5 & _).
    assert (Hp := push_nonneg now st).
    assert (Hnext : at_own_bound a
              (clamp (value st + dir_of a * stepPerSec st * elapsed now st))).
    { destruct (clamp_cases
                  (value st + dir_of a * stepPerSec st * elapsed now st))
        as [[H ->] | [[H ->] | [H ->]]];
      destruct a; unfold at_own_bound in *;
      rewrite ?dir_of_red, ?dir_of_blue in *; lra. }
    split.
    + unfold tick. simpl. apply H5, Hnext.
    + unfold tick. simpl.
      apply (at_own_bound_compat a _ _ (Qeq_sym _ _ H1) Hnext).
Qed.

Lemma tick_clears_actor_at_own_bound_witness :
  active (tick 950 (run kick_into_bound init)) = None.
Proof.
  assert (Hs : synced (run kick_into_bound init)) by (repeat split).
  destruct (tick_clears_actor_at_own_bound _ 950 Hs) as (_ & _ & Hnext).
  apply (Hnext red).
  - reflexivity.
  - unfold at_own_bound. vm_compute. reflexivity.
Defined.

(** *** Mirror symmetry *)

Lemma commit_mirror (st : state) : commit (mirror st) = mirror (commit st).
Proof. reflexivity. Qed.

Lemma commit_state_eq (s t : state) :
  state_eq s t -> state_eq (commit s) (commit t).
Proof.
  unfold state_eq, commit. simpl. intuition.
Qed.

Lemma oQeq_refl (x : option Q) : oQeq x x.
Proof. destruct x; simpl; [reflexivity | exact I]. Qed.

Lemma tickCallback_unfold (now : Q) (st : state) (a : side) :
  activeRef st = Some a ->
  tickCallback now st =
    let next :=
      clamp (valueRef st + dir_of a * stepPerSec st * elapsed now st) in
    let st1 := set_lastTickRef (Some now) st in
    let st2 :=
      if strict_neq next (valueRef st)
      then setValue next (set_valueRef next st1)
      else st1 in
    if (side_eqb a red && geb next 100) || (side_eqb a blue && leb next (-100))
    then setActive None st2
    else st2.
Proof.
  intros Ha. unfold tickCallback. rewrite Ha. reflexivity.
Qed.

Lemma tickCallback_mirror (now : Q) (st : state) :
  state_eq (tickCallback now (mirror st)) (mirror (tickCallback now st)).
Proof.
  destruct (activeRef st) as [a|] eqn:Ha.
  - rewrite (tickCallback_unfold now st a Ha).
    assert (Ha' : activeRef (mirror st) = flip (Some a))
      by (unfold mirror; simpl; rewrite Ha; reflexivity).
    assert (Hn : clamp (valueRef (mirror st)
                        + dir_of match a with red => blue | blue => red end
                          * stepPerSec (mirror st) * elapsed now (mirror st))
                 == - clamp (valueRef st + dir_of a * stepPerSec st
                                           * elapsed now st)).
    { rewrite <- clamp_opp. apply clamp_compat.
      change (stepPerSec (mirror st)) with (stepPerSec st).
      change (elapsed now (mirror st)) with (elapsed now st).
      change (valueRef (mirror st)) with (- valueRef st).
      destruct a; rewrite dir_of_red, dir_of_blue; ring. }
    assert (R1 := clamp_range (valueRef st + dir_of a * stepPerSec st
                                           * elapsed now st)).
    destruct a; cbn [flip] in Ha';
      rewrite (tickCallback_unfold now (mirror st) _ Ha');
      cbv zeta;
      revert Hn R1;
      match goal with
      | |- clamp ?x == - clamp ?y -> _ =>
          generalize (clamp x) as n1; generalize (clamp y) as n2
      end; intros n2 n1 Hn R1;
      change (valueRef (mirror st)) with (- valueRef st);
      cbn [side_eqb andb orb];
      destruct st as [v act f vr ar fr l]; cbn [valueRef];
      qcases; unfold state_eq, mirror; simpl;
      try (exfalso; lra);
      repeat split; try reflexivity; try lra.
  - rewrite !tickCallback_idle
      by (try exact Ha; unfold mirror; simpl; rewrite Ha; reflexivity).
    unfold state_eq, mirror; simpl.
    repeat split; try reflexivity.
Qed.

Lemma kick_value_mirror (a : side) (k v : Q) :
  clamp (- v + dir_of match a with red => blue | blue => red end * k * kickDt)
  == - clamp (v + dir_of a * k * kickDt).
Proof.
  rewrite <- clamp_opp. apply clamp_compat.
  destruct a; rewrite dir_of_red, dir_of_blue; ring.
Qed.

Lemma setActiveAndKick_mirror (s : option side) (now : Q) (st : state) :
  state_eq (setActiveAndKick (flip s) now (mirror st))
           (mirror (setActiveAndKick s now st)).
Proof.
  destruct st as [v act f vr ar fr l].
  destruct s as [a|].
  - assert (H := kick_value_mirror a (100 / Math_max 1 fr) vr).
    destruct a; unfold state_eq; repeat split; try reflexivity; exact H.
  - unfold state_eq; repeat split; try reflexivity. apply oQeq_refl.
Qed.

(** C10. Red/blue mirror symmetry.  [mirror] negates the value and swaps
    the two sides.  For every state and timestamp, a tick from the mirrored
    state gives the mirror of what the tick gives from the state itself:
    the value is the negation and the actor after the tick, cleared or not,
    is the swapped one.  The same holds for the kick of [setActor] with the
    side swapped.  In particular blue from [v] and red from [-v] produce
    opposite values, whatever the fill time and the time elapsed. *)
Theorem mirror_symmetry (st : state) (now : Q) (s : option side) :
  state_eq (tick now (mirror st)) (mirror (tick now st))
  /\ state_eq (setActor (flip s) now (mirror st))
              (mirror (setActor s now st))
  /\ value (tick now (mirror st)) == - value (tick now st)
  /\ active (tick now (mirror st)) = flip (active (tick now st))
  /\ value (setActor (flip s) now (mirror st))
     == - value (setActor s now st)
  /\ active (setActor (flip s) now (mirror st))
     = flip (active (setActor s now st)).
Proof.
  assert (Ht : state_eq (tick now (mirror st)) (mirror (tick now st))).
  { unfold tick. rewrite <- commit_mirror.
    apply commit_state_eq, tickCallback_mirror. }
  assert (Hk : state_eq (setActor (flip s) now (mirror st))
                        (mirror (setActor s now st))).
  { unfold setActor. rewrite <- commit_mirror.
    apply commit_state_eq, setActiveAndKick_mirror. }
  split; [exact Ht|]. split; [exact Hk|].
  destruct Ht as (Ht1 & Ht2 & _). destruct Hk as (Hk1 & Hk2 & _).
  repeat split; assumption.
Qed.

End DomProofs.

(* ================================================================= *)
(** ** Further properties of the countdown engine *)

Module DefuseExtra.

Import Defuse DefuseProofs.
Local Open Scope Z_scope.

(** *** Counting down *)

(** X1. A running countdown with [d > 0] seconds left shows [d - n] after
    [n < d] ticks, every other cell untouched, and from tick number [d] on
    it is expired: no time left, stopped, the expired flag raised and
    disarm mode left, however many more ticks are attempted. *)
Theorem countdown_runs_to_expiry (st : state) (n : nat) :
  isRunning st = true ->
  0 < timeLeft st ->
  (Z.of_nat n < timeLeft st ->
     Nat.iter n tick st = setTimeLeft (timeLeft st - Z.of_nat n) st)
  /\ (timeLeft st <= Z.of_nat n ->
     Nat.iter n tick st
     = mkState (totalSeconds st) 0 false (showSetup st) true
               (showDisarmed st) false (pressed st)).
Proof.
  intros Hrun Hpos. split.
  - intros Hn. apply ticks_count_down; assumption.
  - intros Hn. apply ticks_expire; try assumption. lia.
Qed.

Lemma countdown_runs_to_expiry_witness :
  timeLeft (Nat.iter 2 tick armed_all_set) = 1
  /\ outcome (Nat.iter 7 tick armed_all_set) = EXPIRED.
Proof.
  destruct (countdown_runs_to_expiry armed_all_set 2) as [Hdown _];
    [reflexivity | reflexivity |].
  destruct (countdown_runs_to_expiry armed_all_set 7) as [_ Hover];
    [reflexivity | reflexivity |].
  rewrite Hdown by reflexivity. rewrite Hover by (simpl; lia).
  split; reflexivity.
Defined.

(** *** Time left and total *)

Lemma handle_time_in_range (e : event) (st : state) :
  time_in_range st -> time_in_range (handle e st).
Proof.
  unfold time_in_range. intros H.
  destruct e as [m s| | | | | |i| | | |];
    unfold handle, after_submit, submit, start_disabled, disarm_disabled,
      pad_rendered, tick, tickCallback, startTimer, toggleDisarm, pressPad,
      openSetup, applySetup;
    try (assert (Hm := clampInt_bounds m 0 999 ltac:(lia));
         assert (Hs := clampInt_bounds s 0 59 ltac:(lia)));
    destruct st as [tot left run setup expl dis mode pr]; simpl in *;
    bool_cases;
    repeat match goal with
    | E : (_ <=? _) = true |- _ => apply Z.leb_le in E
    | E : (_ <=? _) = false |- _ => apply Z.leb_gt in E
    end; lia.
Qed.

(** X2. In every state reached through the page's controls the time left
    lies between 0 and the configured total, and the total is at most
    59999 seconds (999 minutes 59 seconds). *)
Theorem time_left_within_total (es : list event) :
  0 <= timeLeft (run es init) <= totalSeconds (run es init)
  /\ totalSeconds (run es init) <= 59999.
Proof.
  assert (H0 : time_in_range init) by (unfold time_in_range; simpl; lia).
  revert H0. unfold run. generalize init as st.
  induction es as [|e es IH]; intros st Hst; simpl; [exact Hst|].
  apply IH, handle_time_in_range, Hst.
Qed.

(** *** The switches *)

Lemma pressedCount_dense (st : state) (bs : list bool) :
  pressed st = dense bs ->
  pressedCount st = length (filter (fun b => b) bs).
Proof.
  unfold pressedCount. intros ->. unfold dense.
  induction bs as [|b bs IH]; simpl; [reflexivity|].
  destruct b; simpl; rewrite IH; reflexivity.
Qed.

Lemma filter_length_le (bs : list bool) :
  (length (filter (fun b => b) bs) <= length bs)%nat.
Proof.
  induction bs as [|b bs IH]; simpl; [lia|]. destruct b; simpl; lia.
Qed.

Lemma all_set_count (bs : list bool) :
  forallb (fun b => b) bs = true ->
  length (filter (fun b => b) bs) = length bs.
Proof.
  induction bs as [|b bs IH]; simpl; [reflexivity|].
  destruct b; simpl; [|discriminate]. intros H. rewrite IH by exact H.
  reflexivity.
Qed.

Lemma set_true_length (i : nat) (bs : list bool) :
  (i < length bs)%nat -> length (set_true i bs) = length bs.
Proof.
  unfold set_true. revert i.
  induction bs as [|b bs IH]; intros [|i] H; simpl in *; try lia.
  rewrite IH by lia. reflexivity.
Qed.

Lemma set_true_count (i : nat) (bs : list bool) :
  (length (filter (fun b => b) (set_true i bs))
   <= S (length (filter (fun b => b) bs)))%nat.
Proof.
  unfold set_true. revert i.
  induction bs as [|b bs IH]; intros [|i].
  - simpl. lia.
  - simpl. lia.
  - simpl. destruct b; simpl; lia.
  - specialize (IH i).
    set (l := firstn i bs ++ true :: skipn (S i) bs) in *.
    change (firstn (S i) (b :: bs) ++ true :: skipn (S (S i)) (b :: bs))
      with (b :: l).
    clearbody l. destruct b; simpl; lia.
Qed.

Lemma pressPad_dense (i : nat) (st : state) (bs : list bool) :
  pressed st = dense bs -> (i < length bs)%nat ->
  pressed (pressPad i st) = dense (set_true i bs).
Proof.
  intros Hpr Hi. unfold pressPad. rewrite Hpr, get_dense.
  destruct (nth i bs false) eqn:E.
  - rewrite (set_true_same bs i E). exact Hpr.
  - rewrite spread_dense, (assign_dense bs i Hi). reflexivity.
Qed.

Lemma pressPad_showDisarmed (i : nat) (st : state) :
  showDisarmed (pressPad i st) = showDisarmed st.
Proof.
  unfold pressPad. destruct (Boolean (get (pressed st) i)); reflexivity.
Qed.

(** A step that leaves the switches alone and does not raise the disarmed
    flag keeps the invariant. *)
Lemma pads_invariant_same (st st' : state) (n m : nat) :
  pressed st' = pressed st ->
  (showDisarmed st' = true -> showDisarmed st = true) ->
  (n <= m)%nat ->
  pads_invariant st n -> pads_invariant st' m.
Proof.
  unfold pads_invariant, nine_switches, pressedCount.
  intros Hp Hd Hnm (Hnine & Hcnt & Hdis). rewrite Hp.
  split; [exact Hnine|]. split; [lia|].
  intros H. specialize (Hdis (Hd H)). lia.
Qed.

(** A step that clears the switches and lowers the disarmed flag. *)
Lemma pads_invariant_cleared (st' : state) (m : nat) :
  pressed st' = Array9_false ->
  showDisarmed st' = false ->
  pads_invariant st' m.
Proof.
  unfold pads_invariant, nine_switches, pressedCount.
  intros Hp Hd. rewrite Hp, Hd. split.
  - exists (repeat false 9). split; reflexivity.
  - split; [simpl; lia | discriminate].
Qed.

Lemma handle_pads_invariant (e : event) (st : state) (n : nat) :
  pads_invariant st n ->
  pads_invariant (handle e st) (n + (if is_pad_click e then 1 else 0)).
Proof.
  intros H.
  destruct e as [m s| | | | | |i| | | |]; simpl is_pad_click;
    unfold handle.
  - (* Submit *)
    destruct (showSetup st);
      [|apply (pads_invariant_same st st n); auto; lia].
    unfold after_submit, submit.
    destruct (clampInt m 0 999 * 60 + clampInt s 0 59 <=? 0).
    + apply (pads_invariant_same st st n); auto; lia.
    + apply pads_invariant_cleared; reflexivity.
  - destruct (showSetup st);
      apply (pads_invariant_same st _ n); auto; lia.
  - apply (pads_invariant_same st _ n); auto; lia.
  - (* ClickStart *)
    unfold startTimer.
    destruct (start_disabled st), (timeLeft st <=? 0);
      apply (pads_invariant_same st _ n); auto; lia.
  - (* Tick *)
    unfold tick, tickCallback.
    destruct (isRunning st), (timeLeft st <=? 1);
      apply (pads_invariant_same st _ n); auto; lia.
  - (* ClickDisarm *)
    destruct (disarm_disabled st) eqn:Hdis;
      [apply (pads_invariant_same st st n); auto; lia|].
    unfold toggleDisarm.
    destruct (disarmMode st); simpl negb; cbv iota.
    + destruct (every_Boolean (pressed st)) eqn:Hall.
      * destruct H as (Hnine & Hcnt & Hd).
        destruct Hnine as (bs & Hpr & Hlen).
        split; [exists bs; split; assumption|].
        rewrite Hpr, every_Boolean_dense in Hall.
        assert (Hc := pressedCount_dense st bs Hpr).
        rewrite (all_set_count bs Hall), Hlen in Hc.
        split.
        -- unfold pressedCount in *. simpl. lia.
        -- intros _. lia.
      * apply (pads_invariant_same st st n); auto; lia.
    + unfold disarm_disabled in Hdis.
      apply orb_false_elim in Hdis. destruct Hdis as [Hdis _].
      apply orb_false_elim in Hdis. destruct Hdis as [_ Hdis].
      apply pads_invariant_cleared; [reflexivity | exact Hdis].
  - (* ClickPad *)
    unfold pad_rendered.
    destruct (disarmMode st); simpl andb;
      [|apply (pads_invariant_same st st n); auto; lia].
    destruct (Nat.ltb_spec i 9) as [Hi | Hi];
      [|apply (pads_invariant_same st st n); auto; lia].
    destruct H as (Hnine & Hcnt & Hd).
    destruct Hnine as (bs & Hpr & Hlen).
    assert (Hi' : (i < length bs)%nat) by lia.
    assert (Hnew := pressPad_dense i st bs Hpr Hi').
    split; [|split].
    + exists (set_true i bs). split; [exact Hnew|].
      rewrite set_true_length by exact Hi'. exact Hlen.
    + rewrite (pressedCount_dense _ _ Hnew).
      rewrite (pressedCount_dense _ _ Hpr) in Hcnt.
      assert (Hc := set_true_count i bs). lia.
    + rewrite pressPad_showDisarmed. intros Hs. specialize (Hd Hs). lia.
  - destruct (showExploded st);
      apply (pads_invariant_same st _ n); auto; lia.
  - destruct (showExploded st);
      apply (pads_invariant_same st _ n); auto; lia.
  - destruct (showDisarmed st) eqn:E;
      apply (pads_invariant_same st _ n); auto; try lia;
      simpl; discriminate.
  - destruct (showDisarmed st) eqn:E;
      apply (pads_invariant_same st _ n); auto; try lia;
      simpl; discriminate.
Qed.

Lemma run_pads_invariant (es : list event) (st : state) (n : nat) :
  pads_invariant st n ->
  pads_invariant (run es st) (n + pad_clicks es).
Proof.
  unfold run, pad_clicks. revert st n.
  induction es as [|e es IH]; intros st n H; simpl.
  - rewrite Nat.add_0_r. exact H.
  - assert (Hstep := handle_pads_invariant e st n H).
    specialize (IH _ _ Hstep).
    destruct (is_pad_click e); simpl length.
    + replace (n + S (length (filter is_pad_click es)))%nat
        with (n + 1 + length (filter is_pad_click es))%nat by lia.
      exact IH.
    + rewrite Nat.add_0_r in IH. exact IH.
Qed.

Lemma init_pads_invariant : pads_invariant init 0.
Proof. apply pads_invariant_cleared; reflexivity. Qed.

(** X3. Through the page's controls the switch array never changes shape:
    in every reachable state it is nine boolean slots, with no hole and no
    [undefined], so the progress count shown is at most 9 and at most the
    number of pad clicks so far. *)
Theorem switches_stay_nine (es : list event) :
  nine_switches (run es init)
  /\ (pressedCount (run es init) <= 9)%nat
  /\ (pressedCount (run es init) <= pad_clicks es)%nat.
Proof.
  destruct (run_pads_invariant es init 0 init_pads_invariant)
    as (Hnine & Hcnt & _).
  split; [exact Hnine|]. split; [|exact Hcnt].
  destruct Hnine as (bs & Hpr & Hlen).
  rewrite (pressedCount_dense _ _ Hpr), <- Hlen.
  apply filter_length_le.
Qed.

(** X4. The countdown cannot be disarmed with fewer than nine pad clicks:
    whenever the disarmed flag is up after a sequence of events from the
    initial state, at least nine of them are pad clicks. *)
Theorem disarm_needs_nine_clicks (es : list event) :
  showDisarmed (run es init) = true -> (9 <= pad_clicks es)%nat.
Proof.
  destruct (run_pads_invariant es init 0 init_pads_invariant)
    as (_ & _ & Hd).
  exact Hd.
Qed.

Lemma disarm_needs_nine_clicks_witness :
  (9 <= pad_clicks disarm_by_clicks)%nat.
Proof.
  apply disarm_needs_nine_clicks. reflexivity.
Defined.

(** *** Feedback of a whole countdown *)

Lemma count_app (p : feedback -> bool) (a b : list feedback) :
  count p (a ++ b) = (count p a + count p b)%nat.
Proof.
  unfold count. rewrite filter_app, length_app. reflexivity.
Qed.

Lemma feedback_stopped (n : nat) (st : state) :
  isRunning st = false -> feedback_of_ticks n st = [].
Proof.
  intros H. induction n as [|n IH]; simpl; [reflexivity|].
  rewrite H, (tick_stopped st H). exact IH.
Qed.

Lemma is_urgent_playTick (x : Z) :
  is_urgent_tone (tick_tone (playTick x)) = (x <=? 10).
Proof.
  unfold is_urgent_tone, playTick. simpl.
  destruct (x <=? 10); reflexivity.
Qed.

(** The calls of a countdown that has [S k] seconds left: [k] tick tones
    and then the explosion. *)
Lemma feedback_counts (k : nat) :
  forall (st : state) (n : nat),
  isRunning st = true ->
  timeLeft st = Z.of_nat (S k) ->
  (S k <= n)%nat ->
  let fb := feedback_of_ticks n st in
  count is_explosion fb = 1%nat
  /\ count is_tick_tone fb = k
  /\ count is_urgent_tone fb = Nat.min k 10
  /\ count is_light_pulse fb = Nat.min k 5
  /\ exists pre, fb = pre ++ [explosion; vibrate [200; 120; 200]].
Proof.
  induction k as [|k IH]; intros st n Hrun Htl Hn;
    (destruct n as [|n]; [lia|]); cbv zeta; simpl feedback_of_ticks;
    rewrite Hrun; unfold tickFeedback, tick; rewrite Hrun;
    unfold tickCallback; rewrite Htl.
  - change (Z.of_nat 1 <=? 1) with true. cbv iota.
    rewrite feedback_stopped by reflexivity.
    repeat split; try reflexivity. exists []. reflexivity.
  - replace (Z.of_nat (S (S k)) <=? 1) with false
      by (symmetry; apply Z.leb_gt; lia).
    cbv zeta iota.
    replace (Z.of_nat (S (S k)) - 1) with (Z.of_nat (S k)) by lia.
    destruct (IH (setTimeLeft (Z.of_nat (S k)) st) n Hrun eq_refl
                ltac:(lia)) as (He & Ht & Hu & Hl & pre & Hpre).
    cbv zeta in *.
    set (rest := feedback_of_ticks n (setTimeLeft (Z.of_nat (S k)) st)) in *.
    clearbody rest.
    change (tick_tone (playTick (Z.of_nat (S k)))
            :: (if Z.of_nat (S k) <=? 5 then [vibrate [30]] else []))
      with ([tick_tone (playTick (Z.of_nat (S k)))]
            ++ (if Z.of_nat (S k) <=? 5 then [vibrate [30]] else [])).
    rewrite <- !app_assoc. rewrite !count_app.
    rewrite He, Ht, Hu, Hl.
    assert (Hu1 : count is_urgent_tone [tick_tone (playTick (Z.of_nat (S k)))]
                  = if Z.of_nat (S k) <=? 10 then 1%nat else 0%nat).
    { unfold count.
      change (filter is_urgent_tone [tick_tone (playTick (Z.of_nat (S k)))])
        with (if is_urgent_tone (tick_tone (playTick (Z.of_nat (S k))))
              then [tick_tone (playTick (Z.of_nat (S k)))] else []).
      rewrite is_urgent_playTick.
      destruct (Z.of_nat (S k) <=? 10); reflexivity. }
    rewrite Hu1.
    split; [|split; [|split; [|split]]].
    + destruct (Z.of_nat (S k) <=? 5); reflexivity.
    + destruct (Z.of_nat (S k) <=? 5); reflexivity.
    + destruct (Z.leb_spec (Z.of_nat (S k)) 10),
               (Z.of_nat (S k) <=? 5); unfold count; simpl; lia.
    + destruct (Z.leb_spec (Z.of_nat (S k)) 5); unfold count; simpl; lia.
    + rewrite Hpre.
      exists ([tick_tone (playTick (Z.of_nat (S k)))]
              ++ (if Z.of_nat (S k) <=? 5 then [vibrate [30]] else [])
              ++ pre).
      rewrite <- !app_assoc. reflexivity.
Qed.

(** X5. The feedback of a whole countdown.  When a running countdown with
    [d > 0] seconds left is ticked [n >= d] times, the callback asks for
    the explosion exactly once, as the last sound, followed by the strong
    vibration; before it come [d - 1] tick tones, [min (d - 1) 10] of
    them with the urgent pitch, and [min (d - 1) 5] light pulses.  Ticks
    after the expiry ask for nothing. *)
Theorem countdown_feedback (st : state) (n : nat) :
  isRunning st = true ->
  0 < timeLeft st ->
  timeLeft st <= Z.of_nat n ->
  let d := Z.to_nat (timeLeft st) in
  let fb := feedback_of_ticks n st in
  count is_explosion fb = 1%nat
  /\ count is_tick_tone fb = (d - 1)%nat
  /\ count is_urgent_tone fb = Nat.min (d - 1) 10
  /\ count is_light_pulse fb = Nat.min (d - 1) 5
  /\ exists pre, fb = pre ++ [explosion; vibrate [200; 120; 200]].
Proof.
  intros Hrun Hpos Hn d fb.
  destruct (Z.to_nat (timeLeft st)) as [|k] eqn:Hd; [lia|].
  subst d. replace (S k - 1)%nat with k by lia.
  apply feedback_counts; [exact Hrun | lia | lia].
Qed.

Lemma countdown_feedback_witness :
  count is_tick_tone (feedback_of_ticks 4 armed_all_set) = 2%nat
  /\ count is_explosion (feedback_of_ticks 4 armed_all_set) = 1%nat.
Proof.
  destruct (countdown_feedback armed_all_set 4) as (He & Ht & _);
    [reflexivity | reflexivity | simpl; lia |].
  split; [exact Ht | exact He].
Defined.

(** *** The setup dialog's numbers *)

(** X6. [clampInt] never returns less than [min]; with [min <= max] its
    result lies in [[min, max]], a number already in that range is returned
    unchanged and [NaN] gives [min].  With [min > max] the result is
    [min] whatever the input. *)
Theorem clampInt_contract (n : option Z) (lo hi : Z) :
  lo <= clampInt n lo hi
  /\ (lo <= hi -> clampInt n lo hi <= hi)
  /\ (forall k, lo <= k <= hi -> clampInt (Some k) lo hi = k)
  /\ clampInt None lo hi = lo
  /\ (hi < lo -> clampInt n lo hi = lo)
  /\ clampInt (Some (clampInt n lo hi)) lo hi = clampInt n lo hi.
Proof.
  unfold clampInt. destruct n as [n|]; repeat split; intros; lia.
Qed.

Lemma clampInt_contract_witness :
  clampInt (Some 75) 0 59 <= 59 /\ clampInt (Some 42) 0 59 = 42.
Proof.
  destruct (clampInt_contract (Some 75) 0 59) as (_ & Hhi & Hid & _).
  split; [apply Hhi; lia | apply Hid; lia].
Defined.



(** *** The low-time warning *)



End DefuseExtra.

(* ================================================================= *)
(** ** Further properties of the domination engine *)

Module DomExtra.

Import Dom DomProofs.
Local Open Scope Q_scope.

(** *** What is shown *)

Lemma run_in_range (os : list op) (st : state) :
  in_range st -> in_range (run os st).
Proof.
  unfold run. revert st.
  induction os as [|o os IH]; intros st H; simpl; [exact H|].
  apply IH, step_in_range, H.
Qed.

(** X9. The two fills never overlap.  In every reachable state the red and
    the blue width are between 0 and 100 percent, at most one of them is
    not zero, their difference is the value and their sum is at most
    100. *)
Theorem fills_never_overlap (os : list op) :
  let st := run os init in
  0 <= redPct st <= 100
  /\ 0 <= bluePct st <= 100
  /\ (redPct st == 0 \/ bluePct st == 0)
  /\ redPct st - bluePct st == value st
  /\ redPct st + bluePct st <= 100.
Proof.
  intros st.
  assert (H : in_range st).
  { apply run_in_range. unfold in_range. simpl. lra. }
  unfold in_range in H. unfold redPct, bluePct.
  destruct (Math_max_spec 0 (value st)) as [[H1 ->] | [H1 ->]];
  destruct (Math_max_spec 0 (- value st)) as [[H2 ->] | [H2 ->]];
    repeat split; try lra; (left; lra) || (right; lra).
Qed.

(** *** Idle ticks *)

Lemma tick_idle (now : Q) (st : state) :
  activeRef st = None -> active st = None ->
  value (tick now st) = value st
  /\ activeRef (tick now st) = None /\ active (tick now st) = None
  /\ fillTimeSec (tick now st) = fillTimeSec st.
Proof.
  intros Har Ha. unfold tick. rewrite tickCallback_idle by exact Har.
  simpl. repeat split; assumption.
Qed.

Lemma ticks_idle (ts : list Q) (st : state) :
  activeRef st = None -> active st = None ->
  value (ticks ts st) = value st /\ active (ticks ts st) = None.
Proof.
  unfold ticks. revert st.
  induction ts as [|t ts IH]; intros st Har Ha; simpl.
  - split; [reflexivity | exact Ha].
  - destruct (tick_idle t st Har Ha) as (Hv & Har' & Ha' & _).
    destruct (IH _ Har' Ha') as (Hv' & Ha'').
    split; [congruence | exact Ha''].
Qed.

(** X10. Pause and reset freeze the bar.  After the pause button, whatever
    the state before, any number of ticks at any timestamps leaves the
    value where it was and the actor cleared; after reset the value stays
    0. *)
Theorem idle_ticks_freeze (st : state) (now : Q) (ts : list Q) :
  value (ticks ts (setActor None now st)) = value st
  /\ active (ticks ts (setActor None now st)) = None
  /\ value (ticks ts (reset now st)) = 0
  /\ active (ticks ts (reset now st)) = None.
Proof.
  destruct (ticks_idle ts (setActor None now st) eq_refl eq_refl)
    as (H1 & H2).
  destruct (ticks_idle ts (reset now st) eq_refl eq_refl) as (H3 & H4).
  repeat split; assumption.
Qed.

(** *** Integration does not depend on the tick cadence *)












(** *** Repeated presses *)




(** *** The fill time *)

Lemma Math_min_spec (a b : Q) :
  (a <= b /\ Math_min a b = a) \/ (b < a /\ Math_min a b = b).
Proof.
  unfold Math_min. qcases; [left | right]; split; auto.
Qed.

(** X14. The fill time stays valid.  In every reachable state the fill time
    is between 1 and 3600 seconds and the refs hold what the state cells
    hold.  The input handler stores a number in that range as it is, stores
    60 for an empty field, 1 for anything below 1 and 3600 for anything
    above 3600, and touches neither the value nor the actor nor the
    timestamp. *)
Theorem fill_time_stays_valid (os : list op) (input : option Q)
    (st : state) :
  1 <= fillTimeSec (run os init) <= 3600
  /\ synced (run os init)
  /\ (forall x, input = Some x -> 1 <= x <= 3600 ->
        fillTimeSec (setFillDuration input st) == x)
  /\ (input = None -> fillTimeSec (setFillDuration input st) = 60)
  /\ (forall x, input = Some x -> x < 1 ->
        fillTimeSec (setFillDuration input st) == 1)
  /\ (forall x, input = Some x -> 3600 < x ->
        fillTimeSec (setFillDuration input st) == 3600)
  /\ value (setFillDuration input st) = value st
  /\ active (setFillDuration input st) = active st
  /\ lastTickRef (setFillDuration input st) = lastTickRef st.
Proof.
  destruct (reachable_well_formed os) as (Hs & Hf).
  split; [exact Hf|]. split; [exact Hs|].
  unfold setFillDuration, onChangeFillTime. simpl.
  repeat split.
  - intros x -> Hx.
    destruct (Math_min_spec 3600 x) as [[H1 ->] | [H1 ->]];
    match goal with
    | |- Math_max 1 ?y == _ =>
        destruct (Math_max_spec 1 y) as [[H2 ->] | [H2 ->]]
    end; lra.
  - intros ->. reflexivity.
  - intros x -> Hx.
    destruct (Math_min_spec 3600 x) as [[H1 ->] | [H1 ->]];
    match goal with
    | |- Math_max 1 ?y == _ =>
        destruct (Math_max_spec 1 y) as [[H2 ->] | [H2 ->]]
    end; lra.
  - intros x -> Hx.
    destruct (Math_min_spec 3600 x) as [[H1 ->] | [H1 ->]];
    match goal with
    | |- Math_max 1 ?y == _ =>
        destruct (Math_max_spec 1 y) as [[H2 ->] | [H2 ->]]
    end; lra.
Qed.

Lemma fill_time_stays_valid_witness :
  fillTimeSec (setFillDuration (Some 5000) init) == 3600
  /\ fillTimeSec (setFillDuration (Some 45) init) == 45.
Proof.
  split.
  - destruct (fill_time_stays_valid [] (Some 5000) init)
      as (_ & _ & _ & _ & _ & H & _).
    apply (H 5000); [reflexivity | lra].
  - destruct (fill_time_stays_valid [] (Some 45) init)
      as (_ & _ & H & _).
    apply (H 45); [reflexivity | lra].
Defined.

End DomExtra.

(* ================================================================= *)
(** ** Properties of the clock display and the setup dialog *)

Module TextProofs.

Import Ascii String DecimalString Text.
Local Open Scope string_scope.
Local Open Scope Z_scope.

(** *** Digits *)

Lemma string_length_app (a b : string) :
  String.length (a ++ b) = (String.length a + String.length b)%nat.
Proof.
  induction a as [|c a IH]; simpl; [reflexivity|]. rewrite IH. reflexivity.
Qed.

Lemma all_digits_app (a b : string) :
  all_digits (a ++ b) = all_digits a && all_digits b.
Proof.
  induction a as [|c a IH]; simpl; [reflexivity|].
  rewrite IH, andb_assoc. reflexivity.
Qed.

Lemma all_digits_uint (d : Decimal.uint) :
  all_digits (NilEmpty.string_of_uint d) = true.
Proof.
  induction d; simpl; try rewrite IHd; reflexivity.
Qed.

Lemma digit_prefix_all (s : string) :
  all_digits s = true -> digit_prefix s = s.
Proof.
  induction s as [|c s IH]; simpl; [reflexivity|].
  intros H. apply andb_true_iff in H. destruct H as [Hc Hs].
  rewrite Hc, IH by exact Hs. reflexivity.
Qed.

Lemma digit_not_space (c : ascii) : is_digit c = true -> is_space c = false.
Proof.
  unfold is_digit, is_space. intros H.
  apply andb_true_iff in H. destruct H as [H1 H2].
  apply Nat.leb_le in H1. apply Nat.leb_le in H2.
  apply orb_false_iff. split.
  - apply andb_false_iff. right. apply Nat.leb_gt. lia.
  - apply Nat.eqb_neq. lia.
Qed.

(** On a non-empty string of digits [parseInt] is the number written. *)
Lemma parseInt_digits (s : string) :
  all_digits s = true -> s <> "" -> parseInt s = digits_value s.
Proof.
  intros Hd Hne. destruct s as [|c s]; [congruence|].
  simpl in Hd. apply andb_true_iff in Hd. destruct Hd as [Hc Hs].
  unfold parseInt. simpl trimStart. rewrite (digit_not_space c Hc).
  assert (Hsign : match String c s with
                  | String "-" rest => (-1, rest)
                  | String "+" rest => (1, rest)
                  | _ => (1, String c s)
                  end = (1, String c s)).
  { destruct c as [[|] [|] [|] [|] [|] [|] [|] [|]];
      try reflexivity; discriminate Hc. }
  rewrite Hsign. simpl digit_prefix. rewrite Hc, (digit_prefix_all s Hs).
  unfold digits_value.
  destruct (NilEmpty.uint_of_string (String c s)); simpl;
    [|reflexivity].
  f_equal. destruct (Z.of_uint u); reflexivity.
Qed.

(** A leading zero does not change the number. *)
Lemma digits_value_zero (s : string) :
  digits_value (String "0" s) = digits_value s.
Proof.
  unfold digits_value. simpl.
  destruct (NilEmpty.uint_of_string s); reflexivity.
Qed.

(** The decimal text of a number that is not negative. *)
Lemma toString_nonneg (n : Z) :
  0 <= n ->
  all_digits (toString n) = true
  /\ toString n <> ""
  /\ digits_value (toString n) = Some n.
Proof.
  intros Hn. unfold toString, digits_value.
  destruct n as [|p|p]; [| |lia].
  - repeat split. discriminate.
  - simpl Z.to_int. unfold NilZero.string_of_int, NilZero.string_of_uint.
    assert (Hnil := DecimalPos.Unsigned.to_uint_nonnil p).
    destruct (Pos.to_uint p) eqn:E; try congruence;
      rewrite <- E;
      (split; [apply all_digits_uint|]);
      (split; [rewrite E; discriminate|]);
      rewrite NilEmpty.usu; simpl; f_equal;
      change (Z.of_uint (Pos.to_uint p)) with (Z.of_int (Z.to_int (Z.pos p)));
      apply DecimalZ.of_to.
Qed.

(** *** Padding *)

Lemma filler_length (n : nat) (pad cur : string) :
  pad <> "" -> String.length (filler n pad cur) = n.
Proof.
  intros Hp. revert cur.
  induction n as [|n IH]; intros cur; simpl; [reflexivity|].
  destruct cur as [|c rest]; simpl.
  - destruct pad as [|c rest]; [congruence|]. simpl. rewrite IH. reflexivity.
  - rewrite IH. reflexivity.
Qed.

Lemma padStart_length (s : string) (n : nat) (pad : string) :
  pad <> "" ->
  String.length (padStart s n pad) = Nat.max n (String.length s).
Proof.
  intros Hp. unfold padStart.
  destruct (Nat.leb_spec n (String.length s)) as [H | H]; [lia|].
  destruct pad as [|c rest]; [congruence|].
  rewrite string_length_app, filler_length by discriminate. lia.
Qed.

(** Padding a string of digits with zeros to two characters. *)
Lemma pad2_cases (s : string) :
  s <> "" ->
  padStart s 2 "0" = s \/ padStart s 2 "0" = String "0" s.
Proof.
  intros Hne. unfold padStart.
  destruct s as [|c [|c' s]]; [congruence | right | left]; reflexivity.
Qed.

Lemma parseInt_pad2 (n : Z) :
  0 <= n ->
  parseInt (padStart (toString n) 2 "0") = Some n
  /\ all_digits (padStart (toString n) 2 "0") = true
  /\ padStart (toString n) 2 "0" <> "".
Proof.
  intros Hn. destruct (toString_nonneg n Hn) as (Hd & Hne & Hv).
  destruct (pad2_cases (toString n) Hne) as [-> | ->].
  - rewrite parseInt_digits by assumption. auto.
  - rewrite parseInt_digits by (simpl; try rewrite Hd; (reflexivity || discriminate)).
    rewrite digits_value_zero. split; [exact Hv|].
    split; [simpl; rewrite Hd; reflexivity | discriminate].
Qed.

(** The two-character texts of the numbers below 100. *)
Lemma pad2_short (n : Z) :
  0 <= n < 100 -> String.length (padStart (toString n) 2 "0") = 2%nat.
Proof.
  intros Hn.
  assert (Hall : forallb
            (fun k => (String.length (padStart (toString (Z.of_nat k)) 2 "0")
                       =? 2)%nat)
            (seq 0 100) = true) by (vm_compute; reflexivity).
  rewrite forallb_forall in Hall.
  specialize (Hall (Z.to_nat n)).
  rewrite Z2Nat.id in Hall by lia.
  apply Nat.eqb_eq, Hall, in_seq. lia.
Qed.

Lemma toString_neg (p : positive) :
  toString (Z.neg p) = String "-" (toString (Z.pos p)).
Proof.
  unfold toString. simpl. unfold NilZero.string_of_uint.
  destruct (Pos.to_uint p); reflexivity.
Qed.

(** Reading back the padded text of any integer gives the integer. *)
Lemma parseInt_pad2_any (n : Z) :
  parseInt (padStart (toString n) 2 "0") = Some n.
Proof.
  destruct (Z.le_gt_cases 0 n) as [Hn | Hn].
  - apply parseInt_pad2, Hn.
  - destruct n as [|p|p]; try lia.
    rewrite toString_neg.
    destruct (toString_nonneg (Z.pos p) ltac:(lia)) as (Hd & Hne & Hv).
    destruct (toString (Z.pos p)) as [|c s] eqn:E; [congruence|].
    unfold padStart. simpl Nat.leb. cbv iota.
    unfold parseInt. simpl trimStart. cbv iota beta.
    rewrite (digit_prefix_all _ Hd), Hv. reflexivity.
Qed.

Lemma padStart_nonempty (s : string) (n : nat) (pad : string) :
  s <> "" -> padStart s n pad <> "".
Proof.
  intros Hne. unfold padStart.
  destruct (n <=? String.length s)%nat; [exact Hne|].
  destruct pad; [exact Hne|].
  destruct (filler (n - String.length s) (String a pad) (String a pad));
    simpl; [exact Hne | discriminate].
Qed.

Lemma toString_nonempty (n : Z) : toString n <> "".
Proof.
  destruct n as [|p|p].
  - discriminate.
  - apply (toString_nonneg (Z.pos p)). lia.
  - rewrite toString_neg. discriminate.
Qed.

Lemma or_string_nonempty (s d : string) : s <> "" -> or_string s d = s.
Proof. destruct s; [congruence | reflexivity]. Qed.

(** The text pieces split at the colon in one way only. *)
Lemma split_at_colon (a a' b b' : string) :
  all_digits a = true -> all_digits a' = true ->
  a ++ ":" ++ b = a' ++ ":" ++ b' -> a = a' /\ b = b'.
Proof.
  revert a'. induction a as [|c a IH]; intros [|c' a'] Ha Ha' E;
    simpl in *.
  - injection E as E. auto.
  - injection E as Ec E. subst c'. discriminate Ha'.
  - injection E as Ec E. subst c. discriminate Ha.
  - injection E as Ec E. subst c'.
    apply andb_true_iff in Ha. apply andb_true_iff in Ha'.
    destruct (IH a' (proj2 Ha) (proj2 Ha') E) as [-> ->]. auto.
Qed.

(** *** The clock *)

(** X15. The clock text reads back.  For a time [t] in seconds that is
    not negative and below [2 ^ 53], where numbers are exact integers,
    [formatTime t] is a minutes field, a colon and a seconds field, both
    fields made of digits only; [parseInt] reads [t / 60] from the minutes
    field and [t mod 60] from the seconds field; the seconds field has
    exactly two characters and the minutes field at least two, exactly two
    when [t < 6000], so that the text is then five characters long. *)
Theorem clock_reads_back (t : Z) :
  0 <= t < 2 ^ 53 ->
  let mm := padStart (toString (t / 60)) 2 "0" in
  let ss := padStart (toString (Z.rem t 60)) 2 "0" in
  formatTime t = mm ++ ":" ++ ss
  /\ all_digits mm = true /\ all_digits ss = true
  /\ parseInt mm = Some (t / 60)
  /\ parseInt ss = Some (t mod 60)
  /\ String.length ss = 2%nat
  /\ (2 <= String.length mm)%nat
  /\ (t < 6000 -> String.length (formatTime t) = 5%nat).
Proof.
  intros [Ht _] mm ss.
  assert (Hq : 0 <= t / 60) by (apply Z.div_pos; lia).
  assert (Hr : Z.rem t 60 = t mod 60) by (apply Z.rem_mod_nonneg; lia).
  assert (Hr' : 0 <= t mod 60 < 60) by (apply Z.mod_pos_bound; lia).
  destruct (parseInt_pad2 (t / 60) Hq) as (Hpm & Hdm & _).
  assert (Hs : 0 <= Z.rem t 60) by lia.
  destruct (parseInt_pad2 (Z.rem t 60) Hs) as (Hps & Hds & _).
  assert (Hls : String.length ss = 2%nat)
    by (apply pad2_short; lia).
  split; [reflexivity|]. split; [exact Hdm|]. split; [exact Hds|].
  split; [exact Hpm|]. split; [rewrite <- Hr; exact Hps|].
  split; [exact Hls|]. split.
  - unfold mm. rewrite padStart_length by discriminate. lia.
  - intros Hlt. unfold formatTime. fold mm ss.
    rewrite !string_length_app, Hls.
    assert (Hlm : String.length mm = 2%nat).
    { apply pad2_short. split; [exact Hq|].
      apply Z.div_lt_upper_bound; lia. }
    rewrite Hlm. reflexivity.
Qed.

Lemma clock_reads_back_witness :
  parseInt (padStart (toString (754 / 60)) 2 "0") = Some 12
  /\ String.length (formatTime 754) = 5%nat.
Proof.
  destruct (clock_reads_back 754 ltac:(lia))
    as (_ & _ & _ & Hm & _ & _ & _ & Hlen).
  split; [exact Hm | apply Hlen; lia].
Defined.

(** X16. Different times are shown differently: on times that are not
    negative and below [2 ^ 53], [formatTime] is injective. *)
Theorem clock_injective (t1 t2 : Z) :
  0 <= t1 < 2 ^ 53 -> 0 <= t2 < 2 ^ 53 ->
  formatTime t1 = formatTime t2 -> t1 = t2.
Proof.
  intros [H1 _] [H2 _] E.
  assert (Hq1 : 0 <= t1 / 60) by (apply Z.div_pos; lia).
  assert (Hq2 : 0 <= t2 / 60) by (apply Z.div_pos; lia).
  assert (Hr1 : Z.rem t1 60 = t1 mod 60) by (apply Z.rem_mod_nonneg; lia).
  assert (Hr2 : Z.rem t2 60 = t2 mod 60) by (apply Z.rem_mod_nonneg; lia).
  assert (Hb1 : 0 <= t1 mod 60 < 60) by (apply Z.mod_pos_bound; lia).
  assert (Hb2 : 0 <= t2 mod 60 < 60) by (apply Z.mod_pos_bound; lia).
  destruct (parseInt_pad2 (t1 / 60) Hq1) as (Hpm1 & Hdm1 & _).
  destruct (parseInt_pad2 (t2 / 60) Hq2) as (Hpm2 & Hdm2 & _).
  unfold formatTime in E. cbv zeta in E.
  destruct (split_at_colon _ _ _ _ Hdm1 Hdm2 E) as [Em Es].
  assert (Eq : t1 / 60 = t2 / 60).
  { rewrite Em in Hpm1. congruence. }
  assert (Er : Z.rem t1 60 = Z.rem t2 60).
  { assert (P1 := parseInt_pad2_any (Z.rem t1 60)).
    assert (P2 := parseInt_pad2_any (Z.rem t2 60)).
    rewrite Es in P1. congruence. }
  rewrite (Z.div_mod t1 60), (Z.div_mod t2 60) by lia.
  rewrite <- Hr1, <- Hr2, Eq, Er. reflexivity.
Qed.

Lemma clock_injective_witness : 61 = 60 + 1.
Proof.
  apply clock_injective; [lia | lia | reflexivity].
Defined.

(** X17. What the clock shows can be typed back.  For a time [t] between
    1 and 59999 seconds, submitting the setup dialog with the minutes and
    the seconds field of [formatTime t] sets up exactly [t] seconds. *)
Theorem clock_retyped (t : Z) (st : Defuse.state) :
  0 < t <= 59999 ->
  submitFields (padStart (toString (t / 60)) 2 "0")
               (padStart (toString (Z.rem t 60)) 2 "0") st
  = Defuse.applied (Defuse.applySetup t st).
Proof.
  intros Ht.
  assert (Hq : 0 <= t / 60 <= 999).
  { split; [apply Z.div_pos; lia|].
    apply Z.lt_succ_r, Z.div_lt_upper_bound; lia. }
  assert (Hr : Z.rem t 60 = t mod 60) by (apply Z.rem_mod_nonneg; lia).
  assert (Hb : 0 <= t mod 60 < 60) by (apply Z.mod_pos_bound; lia).
  unfold submitFields.
  rewrite !or_string_nonempty
    by (apply padStart_nonempty, toString_nonempty).
  rewrite !parseInt_pad2_any. unfold Defuse.submit, Defuse.clampInt.
  rewrite Hr.
  replace (Z.max 0 (Z.min 999 (t / 60))) with (t / 60) by lia.
  replace (Z.max 0 (Z.min 59 (t mod 60))) with (t mod 60) by lia.
  assert (E : t / 60 * 60 + t mod 60 = t).
  { rewrite (Z.div_mod t 60) at 3 by lia. lia. }
  rewrite E.
  destruct (Z.leb_spec t 0); [lia | reflexivity].
Qed.

Lemma clock_retyped_witness :
  submitFields "12" "34" Defuse.init
  = Defuse.applied (Defuse.applySetup 754 Defuse.init).
Proof.
  apply (clock_retyped 754 Defuse.init). lia.
Defined.

(** *** The fields of the setup dialog *)

Lemma digitsOnly_all_digits (s : string) :
  all_digits (digitsOnly s) = true.
Proof.
  induction s as [|c s IH]; simpl; [reflexivity|].
  destruct (is_digit c) eqn:E; simpl; [rewrite E|]; exact IH.
Qed.

Lemma digitsOnly_fixed (s : string) :
  all_digits s = true -> digitsOnly s = s.
Proof.
  induction s as [|c s IH]; simpl; [reflexivity|].
  intros H. apply andb_true_iff in H. destruct H as [Hc Hs].
  rewrite Hc, IH by exact Hs. reflexivity.
Qed.

Lemma digitsOnly_length (s : string) :
  (String.length (digitsOnly s) <= String.length s)%nat.
Proof.
  induction s as [|c s IH]; simpl; [lia|].
  destruct (is_digit c); simpl; lia.
Qed.

(** X18. Typing into a number field whose [max] is an integer from 0 to
    below [10 ^ 21] (so that [String(max)] is its plain decimal text).
    Whatever text is in the input, the field afterwards holds digits only and no more characters than
    [String(max)] has, provided it did before; a text made of digits that
    is short enough is taken as it is, and longer digit runs leave the
    field unchanged.  The minutes field takes up to three digits and the
    seconds field up to two. *)
Theorem field_change_keeps_digits (max : Z) (typed cur : string) :
  0 <= max < 10 ^ 21 ->
  let limit := String.length (toString max) in
  (all_digits cur = true ->
     all_digits (fieldChange max typed cur) = true)
  /\ ((String.length cur <= limit)%nat ->
     (String.length (fieldChange max typed cur) <= limit)%nat)
  /\ (all_digits typed = true -> (String.length typed <= limit)%nat ->
     fieldChange max typed cur = typed)
  /\ ((limit < String.length (digitsOnly typed))%nat ->
     fieldChange max typed cur = cur)
  /\ String.length (toString 999) = 3%nat
  /\ String.length (toString 59) = 2%nat.
Proof.
  intros _ limit. unfold fieldChange. fold limit.
  destruct (Nat.ltb_spec limit (String.length (digitsOnly typed)))
    as [Hlong | Hshort].
  - repeat split; try reflexivity; try (intros; assumption).
    intros Hd Hl. rewrite (digitsOnly_fixed typed Hd) in Hlong. lia.
  - repeat split; try reflexivity.
    + intros _. apply digitsOnly_all_digits.
    + intros _. exact Hshort.
    + intros Hd _. apply digitsOnly_fixed, Hd.
    + intros Hl. lia.
Qed.

Lemma field_change_keeps_digits_witness :
  changeSeconds "4x5" "00" = "45" /\ changeSeconds "456" "00" = "00".
Proof.
  split.
  - destruct (field_change_keeps_digits 59 "45" "00" ltac:(lia))
      as (_ & _ & H & _).
    change (changeSeconds "4x5" "00") with (fieldChange 59 "45" "00").
    apply H; [reflexivity | simpl; lia].
  - destruct (field_change_keeps_digits 59 "456" "00" ltac:(lia))
      as (_ & _ & _ & H & _).
    apply H. simpl. lia.
Defined.

Lemma clampInt_within (n lo hi : Z) :
  lo <= n <= hi -> Defuse.clampInt (Some n) lo hi = n.
Proof. unfold Defuse.clampInt. lia. Qed.

Lemma clampInt_range (n : option Z) (lo hi : Z) :
  lo <= hi -> lo <= Defuse.clampInt n lo hi <= hi.
Proof. destruct n; simpl; lia. Qed.

Lemma clampInt_or_zero (n : option Z) (hi : Z) :
  Defuse.clampInt (Some (or_zero n)) 0 hi = Defuse.clampInt n 0 hi.
Proof. destruct n; simpl; lia. Qed.

(** A digit is one of the ten digit characters. *)
Lemma digit_cases (c : ascii) :
  is_digit c = true ->
  In c ["0"; "1"; "2"; "3"; "4"; "5"; "6"; "7"; "8"; "9"]%char.
Proof.
  destruct c as [[|] [|] [|] [|] [|] [|] [|] [|]];
    intros H; try discriminate H; simpl; tauto.
Qed.

Ltac digit_split H :=
  apply digit_cases in H; simpl in H;
  repeat (destruct H as [H | H]; [symmetry in H; subst|]);
  [..|contradiction].

(** A text of at most three digits reads as a number up to 999. *)
Lemma short_digits_read (v : string) :
  all_digits v = true -> v <> "" -> (String.length v <= 3)%nat ->
  exists n, parseInt v = Some n /\ 0 <= n <= 999.
Proof.
  intros Hd Hne Hl.
  destruct v as [|c1 [|c2 [|c3 [|c4 r]]]]; simpl in Hl; try lia;
    [congruence | | |]; simpl in Hd;
    repeat match goal with
    | H : _ && _ = true |- _ => apply andb_true_iff in H; destruct H
    end.
  - digit_split H; eexists; (split; [vm_compute; reflexivity | lia]).
  - digit_split H; digit_split H0;
      eexists; (split; [vm_compute; reflexivity | lia]).
  - digit_split H; digit_split H0; digit_split H1;
      eexists; (split; [vm_compute; reflexivity | lia]).
Qed.

(** The texts of the numbers up to 999 have at most three characters. *)
Lemma pad2_upto_three (n : Z) :
  0 <= n <= 999 ->
  (String.length (padStart (toString n) 2 "0") <= 3)%nat.
Proof.
  intros Hn.
  assert (Hall : forallb
            (fun k => (String.length (padStart (toString (Z.of_nat k)) 2 "0")
                       <=? 3)%nat)
            (seq 0 1000) = true) by (vm_compute; reflexivity).
  rewrite forallb_forall in Hall.
  specialize (Hall (Z.to_nat n)).
  rewrite Z2Nat.id in Hall by lia.
  apply Nat.leb_le, Hall, in_seq. lia.
Qed.

(** X19. Leaving a field does not change what submit applies.  The minutes
    field holds at most three digits and the seconds field at most two
    (X18).  For such texts, normalising both on blur and then submitting
    gives the same result as submitting right away; the normalised texts
    are again digits only, two or three characters for the minutes and
    exactly two for the seconds, which then read a number from 0 to 59. *)
Theorem blur_then_submit (m s : string) (st : Defuse.state) :
  all_digits m = true -> (String.length m <= 3)%nat ->
  all_digits s = true -> (String.length s <= 2)%nat ->
  submitFields (blurMinutes m) (blurSeconds s) st = submitFields m s st
  /\ all_digits (blurMinutes m) = true
  /\ (2 <= String.length (blurMinutes m) <= 3)%nat
  /\ all_digits (blurSeconds s) = true
  /\ String.length (blurSeconds s) = 2%nat
  /\ exists n, parseInt (blurSeconds s) = Some n /\ 0 <= n <= 59.
Proof.
  intros Hdm Hlm Hds Hls.
  unfold blurMinutes, blurSeconds, fieldBlur.
  set (pm := parseInt (or_string m "0")).
  set (ps := parseInt (or_string s "0")).
  set (n := Defuse.clampInt (Some (or_zero ps)) 0 59).
  assert (Hn : 0 <= n <= 59) by (apply clampInt_range; lia).
  assert (Hpm : exists k, pm = Some k /\ 0 <= k <= 999).
  { unfold pm. apply short_digits_read.
    - destruct m; [reflexivity | exact Hdm].
    - destruct m; discriminate.
    - destruct m; [simpl; lia | exact Hlm]. }
  destruct Hpm as (k & Hk & Hkr).
  split; [|split; [|split; [|split; [|split]]]].
  - unfold submitFields.
    rewrite !or_string_nonempty
      by (apply padStart_nonempty, toString_nonempty).
    rewrite !parseInt_pad2_any. fold pm ps.
    unfold Defuse.submit.
    rewrite (clampInt_within n 0 59 Hn).
    unfold n. rewrite !clampInt_or_zero. reflexivity.
  - rewrite Hk. simpl or_zero. apply parseInt_pad2. lia.
  - rewrite Hk. simpl or_zero. split.
    + rewrite padStart_length by discriminate. lia.
    + apply pad2_upto_three, Hkr.
  - apply parseInt_pad2. lia.
  - apply pad2_short. lia.
  - exists n. split; [apply parseInt_pad2_any | exact Hn].
Qed.

Lemma blur_then_submit_witness :
  submitFields (blurMinutes "7") (blurSeconds "75") Defuse.init
  = submitFields "7" "75" Defuse.init
  /\ String.length (blurSeconds "75") = 2%nat.
Proof.
  destruct (blur_then_submit "7" "75" Defuse.init) as (H1 & _ & _ & _ & H2 & _);
    try reflexivity; try (simpl; lia).
  split; assumption.
Defined.

End TextProofs.
